(** * Otodom crawl pipeline: a shallow embedding of the TypeScript sources

    The development follows the repository file by file:
    - [Queue]       the work queue used by coordinator, worker and verifier;
    - [Verifier]    worker-verifier.ts  ([MissingPropertyVerifier]);
    - [Worker]      worker.ts           ([OtodomWorker]);
    - [Coordinator] coordinator.ts      ([OtodomCoordinator]), with
                    [CoordinatorApi] for its requests to the listings API;
    - [CityScraper] scraper-city.ts     ([OtodomCityScraper]), with
                    [CityDetail] for its detail requests and phase 2;
    - [ApiClient]   api-client.ts       ([BaseApiClient]), with
                    [ApiHeaders] and [RateLimit];
    - [Transformer] transformer.ts      ([transformToStandard]), with
                    [CountrySpecific] for [buildCountrySpecificFields].

    Network traffic, the backing store's availability and the clock are
    inputs of the model (an environment record); every call the code makes
    on the queue or on the Core Service is written to a trace, so that
    "calls X" and "does not call X" are statements about that trace. *)

From Stdlib Require Import ZArith QArith Qround Ascii String Lia.
From stdpp Require Import gmap strings list pretty.
From Equations Require Import Equations.

Local Open Scope string_scope.
Local Open Scope Z_scope.
Local Open Scope list_scope.

(** ** Calls, errors and results *)

(** The calls the code makes on the queue (Q...), on the Core Service
    (Sink...) and on the portal's search API. *)
Inductive Call :=
| QIsProcessed (id : string)
| QMarkFailed (id reason : string)
| QHasPropertyChanged (id : string)
| QStorePropertySnapshot (id payload : string)
| QMarkProcessed (id : string)
| QRequeueWithRetry (id : string) (maxRetries : nat)
| QUpdateLastSeen (id : string)
| QMarkVerifiedInactive (id : string)
| QPushListingIds (ids : list string)
| ApiListings (offset limit : Z)
| SinkIngest (portal_id payload : string)
| SinkMarkInactive (portal_id reason : string).

Global Instance Call_eq_dec : EqDecision Call.
Proof. solve_decision. Defined.

(** What a [throw] carries, as far as the [catch] blocks of the sources
    tell errors apart. *)
Inductive Err :=
| AxiosError (status : option Z)   (* error.response?.status *)
| TypeError                        (* a method called on a value that lacks it *)
| BotDetection                     (* new Error('Bot detection - ...') *)
| TransformError                   (* thrown inside transformToStandard *)
| SinkError                        (* rethrown by core.ts after a failed POST *)
| QueueError (c : Call).           (* the backing store was unreachable *)

Inductive Result (A : Type) :=
| Ok (a : A)
| Throw (e : Err).
Arguments Ok {A} a.
Arguments Throw {A} e.

(** ** config.ts *)

Record Config := {
  apiKey : string;          (* LANDOMO_API_KEY || '' *)
  portal : string;          (* 'otodom' *)
  country : string;         (* 'poland' *)
  requestDelayMs : Z;       (* parseInt(REQUEST_DELAY_MS || '2000') *)
  pageSize : Z;             (* parseInt(PAGE_SIZE || '36') *)
}.

Definition default_config : Config :=
  {| apiKey := EmptyString; portal := "otodom"; country := "poland";
     requestDelayMs := 2000; pageSize := 36 |}.

(** JavaScript truthiness of a string: every string but the empty one. *)
Definition truthy_str (s : string) : bool :=
  match s with EmptyString => false | _ => true end.

(** ** HTTP as the sources see it *)

(** The [id] property of an ad, shown as [String] shows it. *)
Inductive AdId :=
| NoId                         (* the ad has no [id] property *)
| FalsyId (shown : string)     (* [id] is there but falsy: null, 0, '' *)
| TruthyId (shown : string).   (* [id] is there and truthy *)

(** What the code finds in a response body once it has run
    [extractNextData] and walked [props.pageProps.ad]. The raw ad is kept
    as its serialized text. *)
Inductive Body :=
| BodyNotText                                   (* response.data is no string: html.match throws *)
| BodyNoNextData                                (* no __NEXT_DATA__ script, or JSON.parse fails *)
| BodyNoAd                                      (* props.pageProps.ad is missing or falsy *)
| BodyAd (ad_id : AdId) (raw : string).         (* an ad object and its serialized text *)

Inductive HttpResult :=
| Response (status : Z) (body : Body)
| NetworkError.                                 (* timeout, reset, DNS: no response at all *)

(** [axios.get]: a response whose status fails [validateStatus] is thrown
    as an AxiosError carrying that status. *)
Definition axios_get (validateStatus : Z -> bool) (r : HttpResult) : Result (Z * Body) :=
  match r with
  | Response st b => if validateStatus st then Ok (st, b) else Throw (AxiosError (Some st))
  | NetworkError => Throw (AxiosError None)
  end.

(** axios' default [validateStatus]. *)
Definition default_validateStatus (st : Z) : bool := (200 <=? st) && (st <? 300).

(** The two URL forms both worker and verifier try for a listing. *)
Definition listing_urls (id : string) : list string :=
  [ "https://www.otodom.pl/pl/oferta/" +:+ id;
    "https://www.otodom.pl/pl/oferta/ID" +:+ id ].

(** ** The work queue *)

Module Queue.

(** Modelled from the spec: redis-queue.ts is not among the sources, so
    the queue's state and operations follow section 4.1 of the
    specification (EnqueueIfNew, Pop, IsProcessed, MarkProcessed,
    StoreSnapshot, HasChanged, RequeueWithRetry, the missing-channel
    operations and FindStale) under the method names the callers use. *)
Record t := {
  pending : list string;
  known : gset string;
  processed : gset string;
  snapshots : gmap string (string * Z);   (* payload, last_seen *)
  retries : gmap string nat;
  failed : gmap string string;            (* id -> reason *)
  missing : list string;
  verifiedInactive : gset string;
}.

Definition empty : t :=
  {| pending := []; known := ∅; processed := ∅; snapshots := ∅;
     retries := ∅; failed := ∅; missing := []; verifiedInactive := ∅ |}.

Definition is_known (q : t) (id : string) : bool :=
  bool_decide (id ∈ known q) || bool_decide (id ∈ processed q)
  || bool_decide (id ∈ verifiedInactive q).

(** Modelled from the spec: EnqueueIfNew, one id at a time, so that a
    duplicate inside one batch is also filtered. *)
Fixpoint pushListingIds (ids : list string) (q : t) : nat * t :=
  match ids with
  | [] => (0%nat, q)
  | id :: rest =>
      if is_known q id then pushListingIds rest q
      else
        let q1 := {| pending := pending q ++ [id]; known := {[id]} ∪ known q;
                     processed := processed q; snapshots := snapshots q;
                     retries := retries q; failed := failed q;
                     missing := missing q; verifiedInactive := verifiedInactive q |} in
        let '(n, q2) := pushListingIds rest q1 in (S n, q2)
  end.

(** Modelled from the spec: Pop, after the bounded wait has elapsed. *)
Definition popListingId (q : t) : option string * t :=
  match pending q with
  | [] => (None, q)
  | id :: rest =>
      (Some id, {| pending := rest; known := known q; processed := processed q;
                   snapshots := snapshots q; retries := retries q; failed := failed q;
                   missing := missing q; verifiedInactive := verifiedInactive q |})
  end.

(** Modelled from the spec: IsProcessed. *)
Definition isProcessed (id : string) (q : t) : bool :=
  bool_decide (id ∈ processed q).

(** Modelled from the spec: MarkProcessed; the retry record is discarded
    once the id reaches a terminal state. *)
Definition markProcessed (id : string) (q : t) : t :=
  {| pending := pending q; known := known q; processed := {[id]} ∪ processed q;
     snapshots := snapshots q; retries := delete id (retries q); failed := failed q;
     missing := missing q; verifiedInactive := verifiedInactive q |}.

(** Modelled from the spec: StoreSnapshot. *)
Definition storePropertySnapshot (id payload : string) (now : Z) (q : t) : t :=
  {| pending := pending q; known := known q; processed := processed q;
     snapshots := <[id := (payload, now)]> (snapshots q); retries := retries q;
     failed := failed q; missing := missing q; verifiedInactive := verifiedInactive q |}.

(** Modelled from the spec: HasChanged; no prior snapshot counts as
    changed. *)
Definition hasPropertyChanged (id payload : string) (q : t) : bool :=
  match snapshots q !! id with
  | Some (old, _) => negb (bool_decide (old = payload))
  | None => true
  end.

(** Modelled from the spec: RequeueWithRetry. *)
Definition requeueWithRetry (id : string) (maxRetries : nat) (q : t) : bool * t :=
  let n := S (default 0%nat (retries q !! id)) in
  if (n <? maxRetries)%nat then
    (true, {| pending := pending q ++ [id]; known := known q; processed := processed q;
              snapshots := snapshots q; retries := <[id := n]> (retries q);
              failed := failed q; missing := missing q;
              verifiedInactive := verifiedInactive q |})
  else
    (false, {| pending := List.filter (λ x, bool_decide (x ≠ id)) (pending q); known := known q;
               processed := processed q; snapshots := snapshots q;
               retries := delete id (retries q); failed := failed q;
               missing := List.filter (λ x, bool_decide (x ≠ id)) (missing q);
               verifiedInactive := verifiedInactive q |}).

(** Modelled from the spec: the failed/not-found record of section 4.3;
    the id is dropped, not re-enqueued. *)
Definition markFailed (id reason : string) (q : t) : t :=
  {| pending := pending q; known := known q; processed := processed q;
     snapshots := snapshots q; retries := delete id (retries q);
     failed := <[id := reason]> (failed q); missing := missing q;
     verifiedInactive := verifiedInactive q |}.

(** Modelled from the spec: PushMissing; ids already verified inactive
    are not queued again. *)
Definition pushToMissingQueue (ids : list string) (q : t) : nat * t :=
  let fresh := List.filter (λ x, bool_decide (x ∉ verifiedInactive q)
                                 && bool_decide (x ∉ missing q)) ids in
  (length fresh,
   {| pending := pending q; known := known q; processed := processed q;
      snapshots := snapshots q; retries := retries q; failed := failed q;
      missing := missing q ++ fresh; verifiedInactive := verifiedInactive q |}).

(** Modelled from the spec: PopMissing. *)
Definition popFromMissingQueue (q : t) : option string * t :=
  match missing q with
  | [] => (None, q)
  | id :: rest =>
      (Some id, {| pending := pending q; known := known q; processed := processed q;
                   snapshots := snapshots q; retries := retries q; failed := failed q;
                   missing := rest; verifiedInactive := verifiedInactive q |})
  end.

(** Modelled from the spec: MarkVerifiedInactive. *)
Definition markVerifiedInactive (id : string) (q : t) : t :=
  {| pending := pending q; known := known q; processed := processed q;
     snapshots := snapshots q; retries := retries q; failed := failed q;
     missing := missing q; verifiedInactive := {[id]} ∪ verifiedInactive q |}.

(** Modelled from the spec: UpdateLastSeen. *)
Definition updateLastSeen (id : string) (now : Z) (q : t) : t :=
  {| pending := pending q; known := known q; processed := processed q;
     snapshots := alter (λ s, (s.1, now)) id (snapshots q); retries := retries q;
     failed := failed q; missing := missing q;
     verifiedInactive := verifiedInactive q |}.

(** Modelled from the spec: FindStale. *)
Definition findMissingProperties (thresholdMs now : Z) (q : t) : list string :=
  List.filter (λ id, bool_decide (id ∉ verifiedInactive q)
                     && match snapshots q !! id with
                        | Some (_, seen) => seen <? now - thresholdMs
                        | None => false
                        end)
              (elements (processed q)).

End Queue.

(** ** The environment, the world and a state-and-exception monad *)

(** Everything the code cannot decide by itself. *)
Record Env := {
  cfg : Config;
  http : string -> HttpResult;        (* what the portal answers for a URL *)
  q_down : Call -> bool;              (* the backing store is unreachable for this call *)
  sink_down : Call -> bool;           (* the Core Service fails this POST *)
  transform_throws : string -> bool;  (* transformToStandard throws on this raw ad *)
  now : Z;                            (* Date.now() *)
}.

(** The shared store and the calls made so far, oldest first. *)
Record World := {
  queue : Queue.t;
  trace : list Call;
}.

Definition M (S A : Type) : Type := S -> Result A * S.

Definition ret {S A} (a : A) : M S A := fun s => (Ok a, s).

Definition bind {S A B} (m : M S A) (k : A -> M S B) : M S B :=
  fun s => match m s with
           | (Ok a, s') => k a s'
           | (Throw e, s') => (Throw e, s')
           end.

Definition throw {S A} (e : Err) : M S A := fun s => (Throw e, s).

(** [try { m } catch (e) { h e }] *)
Definition try_catch {S A} (m : M S A) (h : Err -> M S A) : M S A :=
  fun s => match m s with
           | (Ok a, s') => (Ok a, s')
           | (Throw e, s') => h e s'
           end.

Definition modify {S} (f : S -> S) : M S unit := fun s => (Ok tt, f s).

Notation "'let!' x ':=' m 'in' k" := (bind m (fun x => k))
  (at level 10, x name, m at level 100, k at level 200).
Notation "m ';;;' k" := (bind m (fun _ => k))
  (at level 100, k at level 200, right associativity).

Definition log (c : Call) : M World unit :=
  modify (fun w => {| queue := queue w; trace := trace w ++ [c] |}).

(** A call on the queue: recorded, then either refused by an unreachable
    store (a transport error, nothing changed) or performed. *)
Definition qcall {A} (env : Env) (c : Call) (op : Queue.t -> A * Queue.t) : M World A :=
  log c ;;;
  if q_down env c then throw (QueueError c)
  else fun w => let '(a, q') := op (queue w) in (Ok a, {| queue := q'; trace := trace w |}).

(** ** core.ts *)

Module Core.
Section core.
Variable env : Env.

(** The POST itself: the Sink receives the request, and axios throws when
    the request fails. *)
Definition post (c : Call) : M World unit :=
  log c ;;; if sink_down env c then throw SinkError else ret tt.

Definition sendToCoreService (portal_id raw_data : string) : M World unit :=
  if negb (truthy_str (apiKey (cfg env))) then ret tt
  else post (SinkIngest portal_id raw_data).

Definition markPropertyInactive (portalId reason : string) : M World unit :=
  if negb (truthy_str (apiKey (cfg env))) then ret tt
  else post (SinkMarkInactive portalId reason).
End core.
End Core.

(** ** Loops of the sources *)

(** What one turn of a [for (const url of urls)] loop body decides. *)
Inductive Turn (A : Type) :=
| Return (a : A)
| Continue.
Arguments Return {A} a.
Arguments Continue {A}.

(** What one poll of a queue yields to a [start] loop. [StopSignal] is a
    SIGINT/SIGTERM handler running [stop()] before the next test of
    [this.isRunning]. *)
Inductive Poll :=
| Pop (id : option string)   (* the pop returned: an id, or null after the timeout *)
| PopThrows                  (* the pop threw: caught by the loop, which backs off *)
| StopSignal.

(** The id a loop goes on with after its [if (!id)] test: null and the
    empty string both count as an empty queue. *)
Definition claimed (id : option string) : option string :=
  match id with
  | Some i => if truthy_str i then Some i else None
  | None => None
  end.

(** How a [start] loop stands once the polls it was given are used up. *)
Inductive LoopStatus :=
| Stopped (unread : list Poll)   (* the while loop was left *)
| Polling.                       (* still inside the loop, waiting for the next poll *)

(** ** worker-verifier.ts *)

Module Verifier.

Record State := {
  world : World;
  verifiedInactiveCount : nat;
  foundActiveCount : nat;
}.

Definition init (q : Queue.t) : State :=
  {| world := {| queue := q; trace := [] |};
     verifiedInactiveCount := 0; foundActiveCount := 0 |}.

Definition lift {A} (m : M World A) : M State A :=
  fun s => let '(r, w) := m (world s) in
           (r, {| world := w; verifiedInactiveCount := verifiedInactiveCount s;
                  foundActiveCount := foundActiveCount s |}).

Definition incr_foundActive : M State unit :=
  modify (fun s => {| world := world s; verifiedInactiveCount := verifiedInactiveCount s;
                      foundActiveCount := S (foundActiveCount s) |}).

Definition incr_verifiedInactive : M State unit :=
  modify (fun s => {| world := world s;
                      verifiedInactiveCount := S (verifiedInactiveCount s);
                      foundActiveCount := foundActiveCount s |}).

(** [validateStatus: (status) => status < 500] *)
Definition validateStatus (st : Z) : bool := st <? 500.

(** The [try] block of [verifyProperty] for one URL. *)
Definition verify_try (r : HttpResult) : Result (Turn bool) :=
  match axios_get validateStatus r with
  | Throw e => Throw e
  | Ok (st, body) =>
      if st =? 404 then Ok (Return false)
      else if st =? 403 then Ok (Return true)
      else match body with
           | BodyNotText => Throw TypeError
           | BodyAd (TruthyId _) _ => Ok (Return true)    (* ad && ad.id *)
           | BodyAd _ _ | BodyNoAd | BodyNoNextData => Ok Continue
           end
  end.

(** The [catch] block: an axios error with status 404 returns false,
    anything else moves on to the next URL. *)
Definition verify_catch (e : Err) : Turn bool :=
  match e with
  | AxiosError (Some st) => if st =? 404 then Return false else Continue
  | _ => Continue
  end.

Definition verify_url (r : HttpResult) : Turn bool :=
  match verify_try r with
  | Ok t => t
  | Throw e => verify_catch e
  end.

Fixpoint verify_urls (rs : list HttpResult) : bool :=
  match rs with
  | [] => false          (* All URLs failed without clear 404 - assume inactive *)
  | r :: rest =>
      match verify_url r with
      | Return b => b
      | Continue => verify_urls rest
      end
  end.

Section verifier.
Variable env : Env.

Definition verifyProperty (id : string) : bool :=
  verify_urls (map (http env) (listing_urls id)).

Definition processMissingProperty (id : string) : M State bool :=
  try_catch
    (if verifyProperty id then
       lift (qcall env (QUpdateLastSeen id)
               (fun q => (tt, Queue.updateLastSeen id (now env) q))) ;;;
       incr_foundActive ;;;
       ret true
     else
       (if truthy_str (apiKey (cfg env))
        then lift (Core.markPropertyInactive env id "not_found")
        else ret tt) ;;;
       lift (qcall env (QMarkVerifiedInactive id)
               (fun q => (tt, Queue.markVerifiedInactive id q))) ;;;
       incr_verifiedInactive ;;;
       ret true)
    (fun _ => ret false).

(** [const maxEmptyChecks = 10] *)
Definition maxEmptyChecks : nat := 10.

(** The [while (this.isRunning)] loop of [start], driven by the polls
    of the missing queue. A throw anywhere in the loop body is caught,
    logged and followed by the next turn. *)
Fixpoint loop (polls : list Poll) (emptyQueueCount : nat) (s : State)
  : State * nat * LoopStatus :=
  match polls with
  | [] => (s, emptyQueueCount, Polling)
  | StopSignal :: rest => (s, emptyQueueCount, Stopped rest)
  | PopThrows :: rest => loop rest emptyQueueCount s
  | Pop id :: rest =>
      match claimed id with
      | None =>
          let emptyQueueCount := S emptyQueueCount in
          if (maxEmptyChecks <=? emptyQueueCount)%nat
          then (s, emptyQueueCount, Stopped rest)          (* break *)
          else loop rest emptyQueueCount s                 (* stats are logged; continue *)
      | Some id =>
          let emptyQueueCount := 0%nat in
          let '(_, s') := processMissingProperty id s in
          loop rest emptyQueueCount s'
      end
  end.

Definition start (polls : list Poll) (s : State) : State * nat * LoopStatus :=
  loop polls 0 s.
End verifier.
End Verifier.

(** ** worker.ts *)

Module Worker.

Record State := {
  world : World;
  processedCount : nat;
  failedCount : nat;
  changedCount : nat;
  unchangedCount : nat;
}.

Definition init (q : Queue.t) : State :=
  {| world := {| queue := q; trace := [] |};
     processedCount := 0; failedCount := 0; changedCount := 0; unchangedCount := 0 |}.

(** The object [fetchPropertyDetail] returns, as far as [processListing]
    reads it. *)
Record Property := {
  prop_id : string;
  rawData : string;
}.

Definition lift {A} (m : M World A) : M State A :=
  fun s => let '(r, w) := m (world s) in
           (r, {| world := w; processedCount := processedCount s;
                  failedCount := failedCount s; changedCount := changedCount s;
                  unchangedCount := unchangedCount s |}).

Definition lift_result {A} (r : Result A) : M State A := fun s => (r, s).

Definition incr_processed : M State unit :=
  modify (fun s => {| world := world s; processedCount := S (processedCount s);
                      failedCount := failedCount s; changedCount := changedCount s;
                      unchangedCount := unchangedCount s |}).
Definition incr_failed : M State unit :=
  modify (fun s => {| world := world s; processedCount := processedCount s;
                      failedCount := S (failedCount s); changedCount := changedCount s;
                      unchangedCount := unchangedCount s |}).
Definition incr_changed : M State unit :=
  modify (fun s => {| world := world s; processedCount := processedCount s;
                      failedCount := failedCount s; changedCount := S (changedCount s);
                      unchangedCount := unchangedCount s |}).
Definition incr_unchanged : M State unit :=
  modify (fun s => {| world := world s; processedCount := processedCount s;
                      failedCount := failedCount s; changedCount := changedCount s;
                      unchangedCount := S (unchangedCount s) |}).

(** [{ id: String(ad.id || listingId), ..., ...ad, rawData: ad }]: the
    spread comes after [id], so an [id] property of the ad wins. *)
Definition property_of_ad (listingId : string) (ad_id : AdId) (raw : string) : Property :=
  {| prop_id := match ad_id with
                | NoId => listingId
                | FalsyId s | TruthyId s => s
                end;
     rawData := raw |}.

(** The [try] block of [fetchPropertyDetail] for one URL. *)
Definition fetch_try (listingId : string) (r : HttpResult) : Result (Turn Property) :=
  match axios_get default_validateStatus r with
  | Throw e => Throw e
  | Ok (_, body) =>
      match body with
      | BodyNotText => Throw TypeError
      | BodyNoNextData | BodyNoAd => Ok Continue
      | BodyAd ad_id raw => Ok (Return (property_of_ad listingId ad_id raw))
      end
  end.

(** The [catch] block: 404 tries the next URL, 403 is rethrown as the
    bot-detection error, anything else is logged and the loop goes on. *)
Definition fetch_catch (e : Err) : Result (Turn Property) :=
  match e with
  | AxiosError (Some st) =>
      if st =? 404 then Ok Continue
      else if st =? 403 then Throw BotDetection
      else Ok Continue
  | _ => Ok Continue
  end.

Definition fetch_url (listingId : string) (r : HttpResult) : Result (Turn Property) :=
  match fetch_try listingId r with
  | Ok t => Ok t
  | Throw e => fetch_catch e
  end.

Fixpoint fetch_urls (listingId : string) (rs : list HttpResult) : Result (option Property) :=
  match rs with
  | [] => Ok None                      (* All URLs failed *)
  | r :: rest =>
      match fetch_url listingId r with
      | Throw e => Throw e
      | Ok (Return p) => Ok (Some p)
      | Ok Continue => fetch_urls listingId rest
      end
  end.

Section worker.
Variable env : Env.

Definition fetchPropertyDetail (listingId : string) : Result (option Property) :=
  fetch_urls listingId (map (http env) (listing_urls listingId)).

(** [transformToStandard(property)] as the worker uses it: on the
    untyped ad it either produces a record or throws. *)
Definition transform (p : Property) : M State unit :=
  if transform_throws env (rawData p) then throw TransformError else ret tt.

(** The [try] block of [processListing]. *)
Definition processListing_try (id : string) : M State bool :=
  let! isProcessed :=
    lift (qcall env (QIsProcessed id) (fun q => (Queue.isProcessed id q, q))) in
  if isProcessed then ret true
  else
    let! property := lift_result (fetchPropertyDetail id) in
    match property with
    | None =>
        lift (qcall env (QMarkFailed id "Not found")
                (fun q => (tt, Queue.markFailed id "Not found" q))) ;;;
        ret false
    | Some property =>
        let! hasChanged :=
          lift (qcall env (QHasPropertyChanged id)
                  (fun q => (Queue.hasPropertyChanged id (rawData property) q, q))) in
        (if negb hasChanged then incr_unchanged
         else
           transform property ;;;
           (if truthy_str (apiKey (cfg env))
            then lift (Core.sendToCoreService env (prop_id property) (rawData property))
            else ret tt) ;;;
           lift (qcall env (QStorePropertySnapshot id (rawData property))
                   (fun q => (tt, Queue.storePropertySnapshot id (rawData property)
                                    (now env) q))) ;;;
           incr_changed) ;;;
        lift (qcall env (QMarkProcessed id)
                (fun q => (tt, Queue.markProcessed id q))) ;;;
        incr_processed ;;;
        ret true
    end.

(** The [catch] block of [processListing]. *)
Definition processListing_catch (id : string) : M State bool :=
  let! requeued :=
    lift (qcall env (QRequeueWithRetry id 3) (Queue.requeueWithRetry id 3)) in
  (if negb requeued then incr_failed else ret tt) ;;;
  ret false.

Definition processListing (id : string) : M State bool :=
  try_catch (processListing_try id) (fun _ => processListing_catch id).

(** [const maxEmptyChecks = 10; // Exit after 10 consecutive empty checks] *)
Definition maxEmptyChecks : nat := 10.

(** The [while (this.isRunning)] loop of [start], driven by the polls
    of the pending queue. Whatever is thrown inside the loop body, by
    the pop or out of [processListing], is caught and logged and the
    loop goes on. *)
Fixpoint loop (polls : list Poll) (emptyQueueCount : nat) (s : State)
  : State * nat * LoopStatus :=
  match polls with
  | [] => (s, emptyQueueCount, Polling)
  | StopSignal :: rest => (s, emptyQueueCount, Stopped rest)
  | PopThrows :: rest => loop rest emptyQueueCount s
  | Pop id :: rest =>
      match claimed id with
      | None =>
          let emptyQueueCount := S emptyQueueCount in
          if (maxEmptyChecks <=? emptyQueueCount)%nat
          then (s, emptyQueueCount, Stopped rest)          (* break *)
          else loop rest emptyQueueCount s                 (* stats are logged; continue *)
      | Some id =>
          let emptyQueueCount := 0%nat in
          let '(_, s') := processListing id s in
          loop rest emptyQueueCount s'
      end
  end.

Definition start (polls : list Poll) (s : State) : State * nat * LoopStatus :=
  loop polls 0 s.
End worker.
End Worker.

(** ** coordinator.ts *)

Module Coordinator.

(** What [fetchListingIds(city, listingType, offset, limit)] hands back
    for one offset: the ids of the page with the advertised total, or the
    error it rethrows. City and listing type are fixed for one
    [discoverCity] call, so a source is a function of the offset. *)
Inductive PageResult :=
| Page (ids : list string) (total : Z)
| PageThrows (e : Err).

Definition Source : Type := Z -> PageResult.

(** [const limit = 50] *)
Definition limit : Z := 50.

Section coordinator.
Variable env : Env.
Variable src : Source.

Definition fetchListingIds (offset : Z) : M World (list string * Z) :=
  log (ApiListings offset limit) ;;;
  match src offset with
  | Page ids total => ret (ids, total)
  | PageThrows e => throw e
  end.

Definition pushListingIds (ids : list string) : M World nat :=
  qcall env (QPushListingIds ids) (Queue.pushListingIds ids).

(** [while (offset < firstPage.total) { ... offset += limit; }], the
    two awaited calls of the body written out with their results. *)
Local Unset Equations With Funext.
Equations? fetch_remaining (total offset : Z) (totalAdded : nat) (w : World)
  : Result nat * World by wf (Z.to_nat (total - offset)) lt :=
  fetch_remaining total offset totalAdded w with decide (offset < total) => {
    | left _ with fetchListingIds offset w => {
        | (Throw e, w1) => (Throw e, w1)
        | (Ok page, w1) with pushListingIds page.1 w1 => {
            | (Throw e, w2) => (Throw e, w2)
            | (Ok pageAdded, w2) =>
                fetch_remaining total (offset + limit) (totalAdded + pageAdded)%nat w2 } }
    | right _ => (Ok totalAdded, w) }.
Proof. unfold limit. lia. Qed.

Definition discoverCity : M World nat :=
  try_catch
    (let! firstPage := fetchListingIds 0 in
     if firstPage.2 =? 0 then ret 0%nat
     else
       let! added := pushListingIds firstPage.1 in
       fetch_remaining firstPage.2 (0 + limit) (0 + added)%nat)
    (fun _ => ret 0%nat).
End coordinator.

(** The offsets requested from the search API, oldest first. *)
Definition requested (tr : list Call) : list Z :=
  omap (fun c => match c with ApiListings off _ => Some off | _ => None end) tr.

Definition fresh : World := {| queue := Queue.empty; trace := [] |}.
End Coordinator.

(** ** JSON values as the sources read them *)

Module Js.

(** A parsed response body. Numbers are kept to the integers, which is
    all the ids and counts of the portal need. *)
#[warnings="-register-all"] Inductive Json :=
| JNull
| JBool (b : bool)
| JNum (n : Z)
| JStr (s : string)
| JArr (xs : list Json)
| JObj (fields : list (string * Json)).

Definition truthy (v : Json) : bool :=
  match v with
  | JNull => false
  | JBool b => b
  | JNum n => negb (n =? 0)
  | JStr s => truthy_str s
  | JArr _ | JObj _ => true
  end.

(** [None] stands for [undefined]. *)
Definition truthy_opt (v : option Json) : bool :=
  match v with Some j => truthy j | None => false end.

Fixpoint assoc {A} (k : string) (l : list (string * A)) : option A :=
  match l with
  | [] => None
  | (k', v) :: rest => if String.eqb k k' then Some v else assoc k rest
  end.

(** [v.k] on a value that is neither null nor undefined, for the keys the
    sources read (pageProps, data, searchAds, items, pagination,
    totalItems, id): only an object can hold them. *)
Definition get (k : string) (v : Json) : option Json :=
  match v with
  | JObj fs => assoc k fs
  | _ => None
  end.

(** [v?.k] *)
Definition opt_get (k : string) (v : option Json) : option Json :=
  match v with
  | Some j => get k j
  | None => None
  end.

(** [String(v)]. An object is shown as [object Object] unless it has a
    [toString] property of its own: parsed from JSON that property is no
    function, and the conversion throws. Array elements are joined by
    commas, null showing as nothing. *)
Fixpoint to_String (v : Json) : Result string :=
  match v with
  | JNull => Ok "null"
  | JBool true => Ok "true"
  | JBool false => Ok "false"
  | JNum n => Ok (pretty n)
  | JStr s => Ok s
  | JArr xs =>
      let fix elements (l : list Json) : Result (list string) :=
        match l with
        | [] => Ok []
        | x :: rest =>
            match (match x with JNull => Ok EmptyString | _ => to_String x end) with
            | Throw e => Throw e
            | Ok shown =>
                match elements rest with
                | Throw e => Throw e
                | Ok others => Ok (shown :: others)
                end
            end
        end in
      match elements xs with
      | Throw e => Throw e
      | Ok shown => Ok (String.concat "," shown)
      end
  | JObj fields =>
      match assoc "toString" fields with
      | Some _ => Throw TypeError
      | None => Ok "[object Object]"
      end
  end.

Definition to_String_opt (v : option Json) : Result string :=
  match v with Some j => to_String j | None => Ok "undefined" end.

(** [a || b] *)
Definition or_else (a : option Json) (b : Json) : Json :=
  match a with
  | Some j => if truthy j then j else b
  | None => b
  end.
End Js.

(** ** scraper-city.ts *)

Module CityScraper.
Import Js.

(** What [axios.get] of a search page comes to. *)
Inductive JsonReply :=
| JsonData (data : Json)
| JsonFails (e : Err).

Record ListingPage := {
  ids : list string;
  total : Json;
}.

Definition empty_page : ListingPage := {| ids := []; total := JNum 0 |}.

(** [data?.pageProps?.data?.searchAds] *)
Definition searchAds_of (data : Json) : option Json :=
  opt_get "searchAds" (opt_get "data" (get "pageProps" data)).

(** [data?.pageProps?.data?.searchAds?.items] *)
Definition items_of (data : Json) : option Json :=
  opt_get "items" (searchAds_of data).

(** [item => String(item.id)]: reading [id] off null throws. *)
Definition item_id (item : Json) : Result string :=
  match item with
  | JNull => Throw TypeError
  | _ => to_String_opt (get "id" item)
  end.

(** [items.map(item => String(item.id))] on an array. *)
Fixpoint map_item_id (items : list Json) : Result (list string) :=
  match items with
  | [] => Ok []
  | item :: rest =>
      match item_id item with
      | Throw e => Throw e
      | Ok i => match map_item_id rest with
                | Throw e => Throw e
                | Ok others => Ok (i :: others)
                end
      end
  end.

(** The [try] block of [fetchListingIds]. *)
Definition fetchListingIds_try (reply : JsonReply) : Result ListingPage :=
  match reply with
  | JsonFails e => Throw e
  | JsonData data =>
      if negb (truthy_opt (items_of data)) then Ok {| ids := []; total := JNum 0 |}
      else
        match items_of data with
        | Some (JArr items) =>
            let pagination := opt_get "pagination" (searchAds_of data) in
            match map_item_id items with
            | Throw e => Throw e
            | Ok ids =>
                Ok {| ids := ids;
                      total := or_else (opt_get "totalItems" pagination) (JNum 0) |}
            end
        | _ => Throw TypeError       (* items.map is not a function *)
        end
  end.

(** [fetchListingIds]: the [catch] block logs and returns the empty page. *)
Definition fetchListingIds (reply : JsonReply) : Result ListingPage :=
  match fetchListingIds_try reply with
  | Ok page => Ok page
  | Throw _ => Ok {| ids := []; total := JNum 0 |}
  end.

(** A page that really is empty. *)
Definition legitimately_empty : Json :=
  JObj [("pageProps",
         JObj [("data",
                JObj [("searchAds",
                       JObj [("items", JArr []);
                             ("pagination", JObj [("totalItems", JNum 0)])])])])].

(** *** The retry loop of phase 2 in [scrapeCity] *)

(** A call of [randomDelay(min, max)]; the bounds are kept in tenths of
    a millisecond, [requestDelayMs] being a whole number scaled by 0.6,
    1.4 or 1.5. *)
Inductive Sleep :=
| RateLimit (min10 max10 : Z)     (* after a successful attempt *)
| Backoff (min10 max10 : Z).      (* before a retry *)


(** [const maxRetries = 3] *)
Definition maxRetries : nat := 3.

(** [config.requestDelayMs * Math.pow(2, retries - 1)], for [retries >= 1]. *)
Definition backoffDelay (c : Config) (retries : nat) : Z :=
  requestDelayMs c * 2 ^ (Z.of_nat retries - 1).

(** [randomDelay(backoffDelay, backoffDelay * 1.5)] *)
Definition backoff_sleep (c : Config) (retries : nat) : Sleep :=
  Backoff (10 * backoffDelay c retries) (15 * backoffDelay c retries).

(** [randomDelay(config.requestDelayMs * 0.6, config.requestDelayMs * 1.4)] *)
Definition rate_limit_sleep (c : Config) : Sleep :=
  RateLimit (6 * requestDelayMs c) (14 * requestDelayMs c).

Record RetryOutcome := {
  sleeps : list Sleep;     (* the randomDelay calls, oldest first *)
  success : bool;
  failed : bool;           (* result.failed++ happened *)
}.

(** [while (retries <= maxRetries && !success)] for one id; [throws]
    tells, attempt by attempt, whether the [try] block throws (only the
    transformer and the Core Service call can). When the attempts given
    are used up the loop is left as it stands. *)
Fixpoint retry_loop (c : Config) (throws : list bool) (retries : nat) : RetryOutcome :=
  if (retries <=? maxRetries)%nat then
    match throws with
    | [] => {| sleeps := []; success := false; failed := false |}
    | false :: _ =>
        {| sleeps := [rate_limit_sleep c]; success := true; failed := false |}
    | true :: rest =>
        let retries := S retries in
        if (maxRetries <? retries)%nat
        then {| sleeps := []; success := false; failed := true |}
        else
          let r := retry_loop c rest retries in
          {| sleeps := backoff_sleep c retries :: sleeps r;
             success := success r; failed := failed r |}
    end
  else {| sleeps := []; success := false; failed := false |}.
End CityScraper.

(** ** scraper-city.ts: the details and phase 2 of [scrapeCity] *)

Module CityDetail.
Import Js.

(** The two fields of the object [fetchPropertyDetail] returns that
    [scrapeCity] reads. The object is
    [{ id: String(ad.id), source, url, ...ad, rawData: ad }]: the spread
    comes after [id], so an ad with an [id] of its own puts that value,
    as it is, in the place of the string. *)
Record Detail := {
  property_id : Json;
  rawData : Json;
}.

(** [fetchPropertyDetail]: null for a failed request, for a body without
    [pageProps.ad], and for a throw of [String(ad.id)] or of the template
    that reads [ad.slug]. *)
Definition fetchPropertyDetail (reply : CityScraper.JsonReply) : option Detail :=
  match reply with
  | CityScraper.JsonFails _ => None
  | CityScraper.JsonData data =>
      match opt_get "ad" (get "pageProps" data) with
      | None => None
      | Some ad =>
          if negb (truthy ad) then None
          else
            match to_String_opt (get "id" ad), to_String_opt (get "slug" ad) with
            | Ok shown, Ok _ =>
                Some {| property_id := default (JStr shown) (get "id" ad);
                        rawData := ad |}
            | _, _ => None
            end
      end
  end.

(** What the world does at one attempt on an id: the answer to the detail
    request, whether [transformToStandard] throws on the property built
    from it, and whether the POST to the Core Service fails. *)
Record Attempt := {
  reply : CityScraper.JsonReply;
  transform_fails : bool;
  send_fails : bool;
}.

(** [this.processedIds], [result] and what the run has done so far. The
    set is only ever asked [has(id)] for a string, and a member that is no
    string equals no string: of the members, the strings are kept. *)
Record Run := {
  processedIds : gset string;
  scraped : nat;
  failed : nat;
  properties : list Json;           (* the ads whose standard form was pushed *)
  requests : list string;           (* fetchPropertyDetail calls, oldest first *)
  ingested : list Json;             (* portal_id of the sendToCoreService calls *)
  sleeps : list CityScraper.Sleep;  (* randomDelay calls, oldest first *)
}.

(** [this.processedIds.add(v)] *)
Definition add_processed (v : Json) (ids : gset string) : gset string :=
  match v with
  | JStr s => {[ s ]} ∪ ids
  | _ => ids
  end.

Definition sleep (d : CityScraper.Sleep) (s : Run) : Run :=
  {| processedIds := processedIds s; scraped := scraped s; failed := failed s;
     properties := properties s; requests := requests s; ingested := ingested s;
     sleeps := sleeps s ++ [d] |}.

(** The [try] block of the while loop; [true] when it throws. *)
Definition attempt (c : Config) (id : string) (a : Attempt) (s : Run) : bool * Run :=
  let s := {| processedIds := processedIds s; scraped := scraped s; failed := failed s;
              properties := properties s; requests := requests s ++ [id];
              ingested := ingested s; sleeps := sleeps s |} in
  match fetchPropertyDetail (reply a) with
  | None => (false, sleep (CityScraper.rate_limit_sleep c) s)
  | Some property =>
      let s := {| processedIds := add_processed (property_id property) (processedIds s);
                  scraped := scraped s; failed := failed s;
                  properties := properties s; requests := requests s;
                  ingested := ingested s; sleeps := sleeps s |} in
      if transform_fails a then (true, s)
      else
        let s := {| processedIds := processedIds s; scraped := S (scraped s);
                    failed := failed s;
                    properties := properties s ++ [rawData property];
                    requests := requests s; ingested := ingested s; sleeps := sleeps s |} in
        if truthy_str (apiKey c) then
          let s := {| processedIds := processedIds s; scraped := scraped s;
                      failed := failed s; properties := properties s;
                      requests := requests s;
                      ingested := ingested s ++ [property_id property];
                      sleeps := sleeps s |} in
          if send_fails a then (true, s)
          else (false, sleep (CityScraper.rate_limit_sleep c) s)
        else (false, sleep (CityScraper.rate_limit_sleep c) s)
  end.

(** [while (retries <= maxRetries && !success)]; [outcomes] tells what the
    world does at the attempt begun with a given value of [retries], and
    [budget] bounds the turns of the loop. After [result.failed++] the
    test of the loop fails. *)
Fixpoint while_loop (c : Config) (id : string) (outcomes : nat -> Attempt)
    (budget retries : nat) (s : Run) : Run :=
  match budget with
  | O => s
  | S budget =>
      if (retries <=? CityScraper.maxRetries)%nat then
        let '(threw, s) := attempt c id (outcomes retries) s in
        if threw then
          let retries := S retries in
          if (CityScraper.maxRetries <? retries)%nat
          then {| processedIds := processedIds s; scraped := scraped s;
                  failed := S (failed s); properties := properties s;
                  requests := requests s; ingested := ingested s; sleeps := sleeps s |}
          else while_loop c id outcomes budget retries
                 (sleep (CityScraper.backoff_sleep c retries) s)
        else s
      else s
  end.

(** One id of [for (const id of allIds)], with turns to spare. *)
Definition scrape_id (c : Config) (id : string) (outcomes : nat -> Attempt) (s : Run) : Run :=
  if bool_decide (id ∈ processedIds s) then s
  else while_loop c id outcomes (S CityScraper.maxRetries) 0 s.

(** Phase 2: every id of [allIds] comes with what the world does at its
    attempts. *)
Fixpoint phase2 (c : Config) (allIds : list (string * (nat -> Attempt))) (s : Run) : Run :=
  match allIds with
  | [] => s
  | (id, outcomes) :: rest => phase2 c rest (scrape_id c id outcomes s)
  end.

Definition fresh : Run :=
  {| processedIds := ∅; scraped := 0; failed := 0; properties := [];
     requests := []; ingested := []; sleeps := [] |}.
End CityDetail.

(** ** coordinator.ts: [fetchListingIds] against the listings API *)

Module CoordinatorApi.
Import Js.

(** The world as [fetchListingIds] meets it: the answer to the [k]-th
    request to the listings API, and the error, if any, that the [k]-th
    call of [refreshToken] rethrows. *)
Record World := {
  replies : nat -> CityScraper.JsonReply;
  refresh : nat -> option Err;
}.

(** The body of the [try] block after [axios.get] returned.
    [data.data || data.results || []], of which [map] is called, and
    [data.pagination?.total || data.meta?.total || 0]. Reading [data.data]
    off null throws, and so does [items.map] when [items] is no array. *)
Definition parse (data : Json) : Result (list string * Json) :=
  match data with
  | JNull => Throw TypeError
  | _ =>
      let items := or_else (get "data" data) (or_else (get "results" data) (JArr [])) in
      let total := or_else (opt_get "total" (get "pagination" data))
                     (or_else (opt_get "total" (get "meta" data)) (JNum 0)) in
      match items with
      | JArr elements =>
          match CityScraper.map_item_id elements with
          | Ok ids => Ok (ids, total)
          | Throw e => Throw e
          end
      | _ => Throw TypeError
      end
  end.

Inductive Outcome :=
| Returns (ids : list string) (total : Json)
| Throws (e : Err)
| Running.     (* the calls allowed are used up and the recursion goes on *)

Record Run := {
  outcome : Outcome;
  requests : nat;     (* requests made to the listings API *)
  refreshes : nat;    (* calls of refreshToken *)
}.

(** [fetchListingIds]: [refreshToken], the request, and on a 401
    [refreshToken] again and the same call once more. [budget] bounds the
    calls of the function; [k] and [r] count the requests and the token
    refreshes made before. *)
Fixpoint fetchListingIds (w : World) (budget k r : nat) : Run :=
  match budget with
  | O => {| outcome := Running; requests := k; refreshes := r |}
  | S budget =>
      match refresh w r with
      | Some e => {| outcome := Throws e; requests := k; refreshes := S r |}
      | None =>
          match replies w k with
          | CityScraper.JsonData data =>
              match parse data with
              | Ok (ids, total) =>
                  {| outcome := Returns ids total; requests := S k; refreshes := S r |}
              | Throw e =>      (* no axios error: rethrown *)
                  {| outcome := Throws e; requests := S k; refreshes := S r |}
              end
          | CityScraper.JsonFails (AxiosError (Some st)) =>
              if st =? 401 then
                match refresh w (S r) with
                | Some e => {| outcome := Throws e; requests := S k; refreshes := S (S r) |}
                | None => fetchListingIds w budget (S k) (S (S r))
                end
              else {| outcome := Throws (AxiosError (Some st)); requests := S k;
                      refreshes := S r |}
          | CityScraper.JsonFails e =>
              {| outcome := Throws e; requests := S k; refreshes := S r |}
          end
      end
  end.
End CoordinatorApi.


(** ** api-client.ts *)

Module ApiClient.

(** The two settings of [RateLimitConfig] that [request] reads when it
    retries; [None] stands for [undefined]. The constructor fills in
    [retryAttempts: 3, retryDelayMs: 1000] before spreading the caller's
    configuration over them. *)
Record ApiClientConfig := {
  retryAttempts : option Z;
  retryDelayMs : option Z;
}.

(** [x || d] on a number: undefined and 0 give [d]. *)
Definition num_or (x : option Z) (d : Z) : Z :=
  match x with
  | Some n => if n =? 0 then d else n
  | None => d
  end.

(** How one attempt of [request] ends. *)
Inductive Attempt :=
| Succeeds
| RateLimited (retryAfter : Z)   (* status 429 with its retry-after, in seconds *)
| Fails.                         (* any other error or non-ok status *)

(** [(this.config.retryDelayMs || 1000) * Math.pow(2, attempt)] *)
Definition retry_delay (c : ApiClientConfig) (attempt : nat) : Z :=
  num_or (retryDelayMs c) 1000 * 2 ^ Z.of_nat attempt.

Definition may_retry (c : ApiClientConfig) (attempt : nat) : bool :=
  Z.of_nat attempt <? num_or (retryAttempts c) 3.

(** [request(..., attempt)]: the [delay(ms)] calls it makes, oldest
    first, and whether it returned a response. *)
Fixpoint request (c : ApiClientConfig) (outcomes : list Attempt) (attempt : nat)
  : list Z * bool :=
  match outcomes with
  | [] => ([], false)
  | Succeeds :: _ => ([], true)
  | RateLimited retryAfter :: rest =>
      if may_retry c attempt then
        let '(ds, ok) := request c rest (S attempt) in
        (retryAfter * 1000 :: ds, ok)
      else ([], false)   (* throw new Error(...): caught below, out of attempts, rethrown *)
  | Fails :: rest =>
      if may_retry c attempt then
        let '(ds, ok) := request c rest (S attempt) in
        (retry_delay c attempt :: ds, ok)
      else ([], false)
  end.
End ApiClient.

(** ** api-client.ts: headers and the rate limit *)

Module ApiHeaders.

(** The settings [buildHeaders] reads; [None] stands for [undefined]. *)
Record HeaderConfig := {
  userAgent : option string;
  headers : gmap string string;     (* this.config.headers, empty when undefined *)
  authToken : option string;
  apiKey : option string;
}.

Definition truthy_text (s : option string) : bool :=
  match s with Some t => truthy_str t | None => false end.

(** [buildHeaders]: the three defaults, the configured headers spread over
    them, then the credentials. *)
Definition buildHeaders (c : HeaderConfig) : gmap string string :=
  let base : gmap string string :=
    headers c ∪
    {[ "User-Agent" := if truthy_text (userAgent c) then default EmptyString (userAgent c)
                       else "Mozilla/5.0";
       "Accept" := "application/json";
       "Content-Type" := "application/json" ]} in
  if truthy_text (authToken c)
  then <[ "Authorization" := String.append "Bearer " (default EmptyString (authToken c)) ]> base
  else if truthy_text (apiKey c)
       then <[ "X-API-Key" := default EmptyString (apiKey c) ]> base
       else base.
End ApiHeaders.

Module RateLimit.

(** [rateLimitState]: times are whole milliseconds; [None] is the NaN that
    [parseInt] leaves for a header that does not start with a number. *)
Record RateLimitState := {
  requestCount : Z;
  resetTime : option Z;
  remainingRequests : option (option Z);
}.

(** [a >= b] and [a > b] on numbers, false when one of them is NaN. *)
Definition geq (a b : option Z) : bool :=
  match a, b with Some x, Some y => y <=? x | _, _ => false end.

Definition minus (a b : option Z) : option Z :=
  match a, b with Some x, Some y => Some (x - y) | _, _ => None end.

(** [checkRateLimit] at the time [now], under [requestsPerSecond]: the
    delay it waits for, if it waits, and the state it leaves. *)
Definition checkRateLimit (requestsPerSecond : option Q) (now : Z) (st : RateLimitState)
  : option Z * RateLimitState :=
  let st :=
    (* secondsSinceReset >= 1 *)
    if geq (minus (Some now) (resetTime st)) (Some 1000)
    then {| requestCount := 0; resetTime := Some now;
            remainingRequests := remainingRequests st |}
    else st in
  let wait :=
    match requestsPerSecond with
    | Some rps =>
        if negb (Qeq_bool rps 0) && Qle_bool rps (inject_Z (requestCount st)) then
          match minus (Some 1000) (minus (Some now) (resetTime st)) with
          | Some waitTime => if 0 <? waitTime then Some waitTime else None
          | None => None
          end
        else None
    | None => None
    end in
  (wait, {| requestCount := requestCount st + 1; resetTime := resetTime st;
            remainingRequests := remainingRequests st |}).

(** A response header as [updateRateLimit] sees it: absent or empty, or
    what [parseInt(value, 10)] makes of it. *)
Inductive Header :=
| Absent
| Parsed (n : option Z).

(** [updateRateLimit] *)
Definition updateRateLimit (remaining reset : Header) (st : RateLimitState) : RateLimitState :=
  let st :=
    match remaining with
    | Parsed n => {| requestCount := requestCount st; resetTime := resetTime st;
                     remainingRequests := Some n |}
    | Absent => st
    end in
  match reset with
  | Parsed n => {| requestCount := requestCount st;
                   resetTime := option_map (fun s => s * 1000) n;
                   remainingRequests := remainingRequests st |}
  | Absent => st
  end.

(** What [request] does to the rate limit, attempt after attempt:
    [checkRateLimit] at the time given and, when [fetch] returned a
    response, [updateRateLimit] with its two headers. The waits are
    listed oldest first. *)
Fixpoint exchanges (requestsPerSecond : option Q)
    (calls : list (Z * option (Header * Header))) (st : RateLimitState)
  : list (option Z) * RateLimitState :=
  match calls with
  | [] => ([], st)
  | (now, response) :: later =>
      let '(wait, st) := checkRateLimit requestsPerSecond now st in
      let st := match response with
                | Some (remaining, reset) => updateRateLimit remaining reset st
                | None => st
                end in
      let '(waits, st) := exchanges requestsPerSecond later st in
      (wait :: waits, st)
  end.
End RateLimit.


(** ** transformer.ts *)

Module Transformer.

(** *** The JavaScript pieces the transformer leans on *)

(** What reading a property off an object literal can give: nothing, one
    of the literal's own strings, or a member inherited from
    [Object.prototype]. *)
Inductive JsVal :=
| VUndefined
| VStr (s : string)
| VInherited (name : string).

(** The properties every plain object inherits from [Object.prototype]. *)
Definition object_prototype_keys : list string :=
  [ "constructor"; "__defineGetter__"; "__defineSetter__"; "hasOwnProperty";
    "__lookupGetter__"; "__lookupSetter__"; "isPrototypeOf";
    "propertyIsEnumerable"; "toString"; "valueOf"; "__proto__"; "toLocaleString" ].

(** [literal[key]]: own properties first, then the prototype. *)
Definition lookup_literal (own : list (string * string)) (key : string) : JsVal :=
  match Js.assoc key own with
  | Some v => VStr v
  | None => if bool_decide (key ∈ object_prototype_keys) then VInherited key
            else VUndefined
  end.

(** [v || d]: functions and objects are truthy, the empty string and
    undefined are not. *)
Definition or_default (v : JsVal) (d : string) : JsVal :=
  match v with
  | VUndefined => VStr d
  | VStr s => if truthy_str s then VStr s else VStr d
  | VInherited n => VInherited n
  end.

(** [s.toLowerCase()] on the ASCII letters and, in their UTF-8 form, on
    the Polish capitals; the bytes of other characters are left as they
    are. *)
Definition lower_ascii (a : ascii) : ascii :=
  let n := nat_of_ascii a in
  if ((65 <=? n) && (n <=? 90))%nat then ascii_of_nat (n + 32) else a.

(** Lead byte, trail byte of the capital, trail byte of the small letter. *)
Definition polish_capitals : list (nat * nat * nat) :=
  [ (196, 132, 133); (196, 134, 135); (196, 152, 153);      (* A-ogonek, C-acute, E-ogonek *)
    (197, 129, 130); (197, 131, 132); (197, 154, 155);      (* L-stroke, N-acute, S-acute *)
    (197, 185, 186); (197, 187, 188); (195, 147, 179) ]%nat. (* Z-acute, Z-dot, O-acute *)

Definition lower_polish (a b : ascii) : option ascii :=
  match List.find (fun t => (t.1.1 =? nat_of_ascii a)%nat && (t.1.2 =? nat_of_ascii b)%nat)
                  polish_capitals with
  | Some t => Some (ascii_of_nat t.2)
  | None => None
  end.

Fixpoint toLowerCase (s : string) : string :=
  match s with
  | EmptyString => EmptyString
  | String a rest =>
      match rest with
      | String b rest' =>
          match lower_polish a b with
          | Some b' => String a (String b' (toLowerCase rest'))
          | None => String (lower_ascii a) (toLowerCase rest)
          end
      | EmptyString => String (lower_ascii a) EmptyString
      end
  end.

(** [text.includes(keyword)] *)
Definition includes (text keyword : string) : bool :=
  match String.index 0 keyword text with
  | Some _ => true
  | None => false
  end.

(** [keywords.some(keyword => text.includes(keyword))] *)
Definition checkFeature (text : string) (keywords : list string) : bool :=
  existsb (includes text) keywords.

(** Truthiness of an optional number. *)
Definition truthy_num (x : option Q) : bool :=
  match x with
  | Some q => negb (Qeq_bool q 0)
  | None => false
  end.

(** [Math.round]: to the nearest integer, halves upwards. *)
Definition Math_round (q : Q) : Z := Qfloor (q + (1 # 2))%Q.

(** *** types.ts: [Property] *)

Inductive ListingType := Sale | Rent | Lease | Other.

Definition listingType_text (t : ListingType) : string :=
  match t with
  | Sale => "sale" | Rent => "rent" | Lease => "lease" | Other => "other"
  end.

Record Coordinates := { lat : option Q; lng : option Q }.

Record Location := {
  address : option string;
  city : option string;
  district : option string;
  province : option string;
  loc_country : string;
  coordinates : option Coordinates;
}.

Record Details := {
  bedrooms : option Q;
  bathrooms : option Q;
  sqm : option Q;
  sqft : option Q;
  rooms : option Q;
  floor : option string;
  totalFloors : option Q;
  terrainArea : option Q;
  buildingYear : option Q;
  yearBuilt : option Q;        (* read by the transformer, absent from the interface *)
  buildingType : option string;
}.

Record Status := {
  isPrivateOwner : option bool;
  isPromoted : option bool;
  isExclusiveOffer : option bool;
  isFeatured : option bool;
  isVerified : option bool;
}.

Record Dates := { updatedAt : option string; createdAt : option string }.

Record Property := {
  id : string;
  title : string;
  price : option Q;           (* number | null *)
  currency : string;
  propertyType : string;
  listingType : ListingType;
  location : Location;
  images : list string;
  scrapedAt : string;
  pricePerSqm : option Q;
  description : option string;
  details : Details;
  features : list string;
  amenities : option (list string);
  status : option Status;
  dates : option Dates;
}.

(** *** [StandardProperty] *)

Record StdCoordinates := { std_lat : Q; std_lon : Q }.

Record StdLocation := {
  std_address : option string;
  std_city : option string;
  std_district : option string;
  std_province : option string;
  postal_code : option string;
  country : string;
  std_coordinates : option StdCoordinates;
}.

Record StdDetails := {
  std_bedrooms : option Q;
  std_bathrooms : option Q;
  std_sqm : option Q;
  std_sqft : option Q;
  std_rooms : option Q;
  std_floor : option string;
  total_floors : option Q;
  year_built : option Q;
  land_area_sqm : option Q;
}.

Record Amenities := {
  has_parking : bool; has_garage : bool; has_balcony : bool; has_terrace : bool;
  has_garden : bool; has_elevator : bool; has_air_conditioning : bool;
  has_heating : bool; has_security : bool; is_furnished : bool;
}.

Record StdStatus := {
  is_featured : option bool; is_promoted : option bool; is_exclusive : option bool;
  is_verified : option bool; is_private_owner : option bool;
}.

Record StandardProperty := {
  std_title : string;
  std_description : option string;
  std_price : option Q;
  std_currency : string;
  price_per_sqm : option Q;
  price_per_sqft : option Z;
  property_type : JsVal;
  transaction_type : JsVal;
  std_location : StdLocation;
  std_details : StdDetails;
  std_features : list string;
  std_amenities : Amenities;
  std_images : list string;
  std_status : StdStatus;
  created_at : option string;
  updated_at : option string;
  scraped_at : string;
}.

(** *** [transformToStandard] *)

Definition propertyTypeMap : list (string * string) :=
  [ ("apartment", "apartment"); ("mieszkanie", "apartment");
    ("house", "house"); ("dom", "house");
    ("land", "land"); ("dzialka", "land"); ("działka", "land");
    ("commercial", "commercial"); ("lokal", "commercial");
    ("property", "other") ].

Definition transactionTypeMap : list (string * string) :=
  [ ("sale", "sale"); ("rent", "rent"); ("lease", "lease"); ("other", "other") ].

Definition parseAmenities (features : list string) (existingAmenities : option (list string))
  : Amenities :=
  let allFeatures := (features ++ default [] existingAmenities)%list in
  let featureText := toLowerCase (String.concat " " allFeatures) in
  {| has_parking := checkFeature featureText ["parking"; "garaż"; "miejsce parkingowe"];
     has_garage := checkFeature featureText ["garage"; "garaż"];
     has_balcony := checkFeature featureText ["balcony"; "balkon"];
     has_terrace := checkFeature featureText ["terrace"; "taras"];
     has_garden := checkFeature featureText ["garden"; "ogród"; "ogrod"];
     has_elevator := checkFeature featureText ["elevator"; "lift"; "winda"];
     has_air_conditioning := checkFeature featureText ["air"; "klimatyzacja"; "ac"];
     has_heating := checkFeature featureText ["heating"; "ogrzewanie"; "centralne"];
     has_security := checkFeature featureText ["security"; "alarm"; "ochrona"; "monitoring"];
     is_furnished := checkFeature featureText ["furnished"; "umeblowane"; "wyposażone"] |}.

(** [transformToStandard], without the agent block (copied as it is) and
    the [country_specific] block (built by a helper of its own from the
    same input); neither feeds the fields modelled here. *)
Definition transformToStandard (property : Property) : StandardProperty :=
  let standardPropertyType :=
    or_default (lookup_literal propertyTypeMap (toLowerCase (propertyType property)))
               "other" in
  let transactionType :=
    or_default (lookup_literal transactionTypeMap (listingType_text (listingType property)))
               "other" in
  let coords :=
    match coordinates (location property) with
    | Some c =>
        match lat c, lng c with
        | Some la, Some lo =>
            if negb (Qeq_bool la 0) && negb (Qeq_bool lo 0)
            then Some {| std_lat := la; std_lon := lo |} else None
        | _, _ => None
        end
    | None => None
    end in
  let sqft_ :=
    match sqm (details property) with
    | Some m =>
        if negb (Qeq_bool m 0)
        then Some (inject_Z (Math_round (m * (107639 # 10000) * 10)) / 10)%Q
        else sqft (details property)
    | None => sqft (details property)
    end in
  let pricePerSqft :=
    if truthy_num (pricePerSqm property) && truthy_num (sqm (details property))
    then option_map (fun p => Math_round (p / (107639 # 10000))%Q) (pricePerSqm property)
    else None in
  {| std_title := title property;
     std_description := description property;
     std_price := price property;
     std_currency := currency property;
     price_per_sqm := pricePerSqm property;
     price_per_sqft := pricePerSqft;
     property_type := standardPropertyType;
     transaction_type := transactionType;
     std_location :=
       {| std_address := address (location property);
          std_city := city (location property);
          std_district := district (location property);
          std_province := province (location property);
          postal_code := None;            (* location.postalCode: not in the interface *)
          country := "poland";
          std_coordinates := coords |};
     std_details :=
       {| std_bedrooms := bedrooms (details property);
          std_bathrooms := bathrooms (details property);
          std_sqm := sqm (details property);
          std_sqft := sqft_;
          std_rooms := rooms (details property);
          std_floor := floor (details property);
          total_floors := totalFloors (details property);
          year_built := if truthy_num (buildingYear (details property))
                        then buildingYear (details property)
                        else yearBuilt (details property);
          land_area_sqm := terrainArea (details property) |};
     std_features := features property;
     std_amenities := parseAmenities (features property) (amenities property);
     std_images := images property;
     std_status :=
       {| is_featured := status property ≫= isFeatured;
          is_promoted := status property ≫= isPromoted;
          is_exclusive := status property ≫= isExclusiveOffer;
          is_verified := status property ≫= isVerified;
          is_private_owner := status property ≫= isPrivateOwner |};
     created_at := dates property ≫= createdAt;
     updated_at := dates property ≫= updatedAt;
     scraped_at := scrapedAt property |}.

Definition property_types : list JsVal :=
  [VStr "apartment"; VStr "house"; VStr "land"; VStr "commercial"; VStr "other"].

Definition transaction_types : list JsVal :=
  [VStr "sale"; VStr "rent"; VStr "lease"; VStr "other"].
End Transformer.

(** ** transformer.ts: [buildCountrySpecificFields] *)

Module CountrySpecific.
Import Transformer.

(** The fields of [country_specific] that come from the part of
    [Property] modelled above; the development and energy-class blocks
    read fields of their own and are left out. *)
Record Fields := {
  typ_nieruchomosci : JsVal;
  typ_budynku : option string;
  pietro : option string;
  liczba_pieter : option Q;
  liczba_pokoi : option Q;
  rok_budowy : option Q;
  balkon : bool; taras : bool; ogrod : bool; garaz : bool;
  piwnica : bool; poddasze : bool; winda : bool;
}.

Definition polishTypeMap : list (string * string) :=
  [ ("apartment", "mieszkanie"); ("house", "dom");
    ("land", "dzialka"); ("commercial", "lokal") ].

(** [if (x) specific.f = x] on an optional string. *)
Definition if_text (x : option string) : option string :=
  match x with
  | Some s => if truthy_str s then Some s else None
  | None => None
  end.

Definition if_num (x : option Q) : option Q :=
  if truthy_num x then x else None.

Definition buildCountrySpecificFields (property : Property) : Fields :=
  let featureText := toLowerCase (String.concat " " (features property)) in
  {| typ_nieruchomosci := lookup_literal polishTypeMap (toLowerCase (propertyType property));
     typ_budynku := if_text (buildingType (details property));
     pietro := if_text (floor (details property));
     liczba_pieter := if_num (totalFloors (details property));
     liczba_pokoi := if_num (rooms (details property));
     rok_budowy := if_num (buildingYear (details property));
     balkon := checkFeature featureText ["balkon"; "balcony"];
     taras := checkFeature featureText ["taras"; "terrace"];
     ogrod := checkFeature featureText ["ogród"; "ogrod"; "garden"];
     garaz := checkFeature featureText ["garaż"; "garaz"; "garage"];
     piwnica := checkFeature featureText ["piwnica"; "basement"; "cellar"];
     poddasze := checkFeature featureText ["poddasze"; "attic"];
     winda := checkFeature featureText ["winda"; "elevator"; "lift"] |}.
End CountrySpecific.


(** * Vocabulary of the properties *)

(** An answer that settles nothing about the listing: no definitive 404
    and no page carrying the ad. Access denied, a server error or a
    network failure, and a page without usable ad data all count. *)
Definition ambiguous (r : HttpResult) : bool :=
  match r with
  | NetworkError => true
  | Response st body =>
      if st =? 404 then false
      else if st =? 403 then true
      else if 500 <=? st then true
      else match body with
           | BodyAd (TruthyId _) _ => false
           | _ => true
           end
  end.

(** An access-denied answer. *)
Definition denied (r : HttpResult) : bool :=
  match r with
  | Response st _ => st =? 403
  | NetworkError => false
  end.

(** A definitive not-found answer. *)
Definition not_found (r : HttpResult) : bool :=
  match r with
  | Response st _ => st =? 404
  | NetworkError => false
  end.

(** Calls that change the queue, as opposed to reads of it and to calls on
    other services. *)
Definition is_queue_mutation (c : Call) : bool :=
  match c with
  | QMarkFailed _ _ | QStorePropertySnapshot _ _ | QMarkProcessed _
  | QRequeueWithRetry _ _ | QUpdateLastSeen _ | QMarkVerifiedInactive _
  | QPushListingIds _ => true
  | QIsProcessed _ | QHasPropertyChanged _ | ApiListings _ _
  | SinkIngest _ _ | SinkMarkInactive _ _ => false
  end.

(** The Ingest requests the Sink received. *)
Definition sink_ingests (tr : list Call) : list Call :=
  List.filter (fun c => match c with SinkIngest _ _ => true | _ => false end) tr.

(** The errors the worker's [try] block can get from the detail fetch, the
    transformer and the Core Service. *)
Definition from_fetch_transform_or_sink (e : Err) : Prop :=
  e = BotDetection \/ e = TransformError \/ e = SinkError.

(** The offsets a paginated walk visits after the first page when it is
    told [total] items: 50, 100, ... below [total]. *)
Definition offsets_below (total : Z) : list Z :=
  List.map (fun i => Coordinator.limit * Z.of_nat i)
           (seq 1 (Z.to_nat ((total - 1) / Coordinator.limit))).


(** An answer after which the verifier moves on to the next URL form:
    ambiguous, and no access-denied answer. *)
Definition inconclusive (r : HttpResult) : bool := ambiguous r && negb (denied r).

(** An answer in which the verifier finds the ad: a page with an ad that
    has an id, under a status below 500 other than 403 and 404. *)
Definition shows_ad (r : HttpResult) : bool :=
  match r with
  | Response st (BodyAd (TruthyId _) _) =>
      (st <? 500) && negb (st =? 404) && negb (st =? 403)
  | _ => false
  end.

(** The polls that handed a loop an id to work on. *)
Definition ids_claimed (polls : list Poll) : nat :=
  length (omap (fun p => match p with Pop id => claimed id | _ => None end) polls).

(** An answer from which the worker's fetch gets neither a property nor
    a bot-detection error: anything but a 2xx page carrying an ad, and
    but a 403. *)
Definition yields_nothing (r : HttpResult) : bool :=
  match r with
  | NetworkError => true
  | Response st body =>
      if default_validateStatus st
      then match body with BodyAd _ _ => false | _ => true end
      else negb (st =? 403)
  end.

(** The requests the Core Service received, of either kind. *)
Definition sink_calls (tr : list Call) : list Call :=
  List.filter (fun c => match c with SinkIngest _ _ | SinkMarkInactive _ _ => true
                                | _ => false end) tr.

(** The attempt reaches the Core Service and is refused there. *)
Definition refused_by_sink (a : CityDetail.Attempt) : bool :=
  match CityDetail.fetchPropertyDetail (CityDetail.reply a) with
  | Some _ => negb (CityDetail.transform_fails a) && CityDetail.send_fails a
  | None => false
  end.

(** The attempt goes through: the ad is there, transformed and accepted. *)
Definition goes_through (a : CityDetail.Attempt) : bool :=
  match CityDetail.fetchPropertyDetail (CityDetail.reply a) with
  | Some _ => negb (CityDetail.transform_fails a) && negb (CityDetail.send_fails a)
  | None => false
  end.

(** The detail an attempt yields, if any, carries an id that is no string. *)
Definition id_not_text (a : CityDetail.Attempt) : bool :=
  match CityDetail.fetchPropertyDetail (CityDetail.reply a) with
  | Some p => match CityDetail.property_id p with Js.JStr _ => false | _ => true end
  | None => true
  end.

(** The response, if there was one, brought no reset header that
    [parseInt] reads as a number. *)
Definition no_readable_reset (response : option (RateLimit.Header * RateLimit.Header)) : bool :=
  match response with
  | Some (_, RateLimit.Parsed (Some _)) => false
  | _ => true
  end.

(** The text [parseAmenities] searches. *)
Definition feature_text (features : list string) (existing : option (list string)) : string :=
  Transformer.toLowerCase (String.concat " " (features ++ default [] existing)).

(** The answer is a 401. *)
Definition unauthorized (reply : CityScraper.JsonReply) : bool :=
  match reply with
  | CityScraper.JsonFails (AxiosError (Some st)) => st =? 401
  | _ => false
  end.

(** What a single answer other than a 401 makes [fetchListingIds] do. *)
Definition settles (reply : CityScraper.JsonReply) : CoordinatorApi.Outcome :=
  match reply with
  | CityScraper.JsonFails e => CoordinatorApi.Throws e
  | CityScraper.JsonData data =>
      match CoordinatorApi.parse data with
      | Ok (ids, total) => CoordinatorApi.Returns ids total
      | Throw e => CoordinatorApi.Throws e
      end
  end.

(** ** Concrete environments *)

Definition config_with_key : Config :=
  {| apiKey := "secret"; portal := "otodom"; country := "poland";
     requestDelayMs := 2000; pageSize := 36 |}.

Definition env_of (c : Config) (answers : string -> HttpResult) : Env :=
  {| cfg := c; http := answers; q_down := fun _ => false; sink_down := fun _ => false;
     transform_throws := fun _ => false; now := 1700000000000 |}.

(** Every request times out. *)
Definition env_unreachable : Env := env_of config_with_key (fun _ => NetworkError).

(** Every URL answers 200 with a page that carries no ad. *)
Definition env_no_ad : Env := env_of config_with_key (fun _ => Response 200 BodyNoAd).

(** Every URL answers 403. *)
Definition env_denied : Env := env_of config_with_key (fun _ => Response 403 BodyNoNextData).

(** Every URL answers 404. *)
Definition env_gone : Env := env_of config_with_key (fun _ => Response 404 BodyNoNextData).

(** The raw ad of listing 7. *)
Definition ad7 : string := "{id:7,title:Mieszkanie}".

(** Every URL answers 200 with the ad of listing 7; no API key is set. *)
Definition env_listed : Env :=
  env_of default_config (fun _ => Response 200 (BodyAd (TruthyId "7") ad7)).

(** The same portal, with an API key configured. *)
Definition env_listed_key : Env :=
  env_of config_with_key (fun _ => Response 200 (BodyAd (TruthyId "7") ad7)).

(** A queue that already holds the snapshot [ad7] of listing 7. *)
Definition queue_with_snapshot : Queue.t :=
  Queue.storePropertySnapshot "7" ad7 1600000000000 Queue.empty.

(** The retry settings [BaseApiClient]'s constructor starts from. *)
Definition api_defaults : ApiClient.ApiClientConfig :=
  {| ApiClient.retryAttempts := Some 3; ApiClient.retryDelayMs := Some 1000 |}.


(** A portal that lists one id per page and advertises [total] items. *)
Definition source_numbered (total : Z) : Coordinator.Source :=
  fun off => Coordinator.Page [pretty off] total.

(** A portal whose listings vanish after the first page: later pages are
    empty and advertise a total of 0. *)
Definition source_drying_up : Coordinator.Source :=
  fun off => if off =? 0 then Coordinator.Page ["1"; "2"] 150 else Coordinator.Page [] 0.

Definition page_ids (p : Coordinator.PageResult) : list string :=
  match p with
  | Coordinator.Page ids _ => ids
  | Coordinator.PageThrows _ => []
  end.

(** A search answer that failed, or whose body lacks
    [pageProps.data.searchAds.items]. *)
Definition failed_or_lacks_items (reply : CityScraper.JsonReply) : Prop :=
  match reply with
  | CityScraper.JsonFails _ => True
  | CityScraper.JsonData d => Js.truthy_opt (CityScraper.items_of d) = false
  end.

(** A well-typed [Property] whose type is called [pt]. *)
Definition listing_of_type (pt : string) : Transformer.Property :=
  {| Transformer.id := "1"; Transformer.title := "Mieszkanie, 50 m2";
     Transformer.price := Some (500000 # 1)%Q; Transformer.currency := "PLN";
     Transformer.propertyType := pt; Transformer.listingType := Transformer.Sale;
     Transformer.location :=
       {| Transformer.address := None; Transformer.city := Some "Warszawa";
          Transformer.district := None; Transformer.province := None;
          Transformer.loc_country := "Poland"; Transformer.coordinates := None |};
     Transformer.images := []; Transformer.scrapedAt := "2026-02-04T00:00:00.000Z";
     Transformer.pricePerSqm := Some (10000 # 1)%Q; Transformer.description := None;
     Transformer.details :=
       {| Transformer.bedrooms := None; Transformer.bathrooms := None;
          Transformer.sqm := Some (50 # 1)%Q; Transformer.sqft := None;
          Transformer.rooms := None; Transformer.floor := None;
          Transformer.totalFloors := None; Transformer.terrainArea := None;
          Transformer.buildingYear := None; Transformer.yearBuilt := None;
          Transformer.buildingType := None |};
     Transformer.features := ["Balkon"]; Transformer.amenities := None;
     Transformer.status := None; Transformer.dates := None |}.

(** What a portal answers for listing 7 when its two URL forms differ. *)
Definition answers_by_form (first second : HttpResult) : string -> HttpResult :=
  fun url => if String.eqb url "https://www.otodom.pl/pl/oferta/7" then first else second.

(** The first URL form times out, the second answers 404. *)
Definition env_second_form_gone : Env :=
  env_of config_with_key (answers_by_form NetworkError (Response 404 BodyNoNextData)).

(** The first URL form shows a page without ad, the second the ad. *)
Definition env_second_form_listed : Env :=
  env_of config_with_key
    (answers_by_form (Response 200 BodyNoAd) (Response 200 (BodyAd (TruthyId "7") ad7))).

(** The first URL form times out, the second answers 403. *)
Definition env_second_form_denied : Env :=
  env_of config_with_key (answers_by_form NetworkError (Response 403 BodyNoNextData)).

(** A search that finds nothing. *)
Definition source_empty : Coordinator.Source := fun _ => Coordinator.Page [] 0.

(** A portal that serves its first page, advertising 120 listings, and
    answers 500 from then on. *)
Definition source_failing_later : Coordinator.Source :=
  fun off => if off =? 0 then Coordinator.Page ["1"; "2"] 120
             else Coordinator.PageThrows (AxiosError (Some 500)).

(** A detail page for a numbered ad. *)
Definition detail_page (n : Z) : CityScraper.JsonReply :=
  CityScraper.JsonData
    (Js.JObj [("pageProps",
               Js.JObj [("ad", Js.JObj [("id", Js.JNum n); ("slug", Js.JStr "mieszkanie")])])]).

(** The ad of listing [n] arrives and the Core Service refuses it. *)
Definition sink_refuses (n : Z) : CityDetail.Attempt :=
  {| CityDetail.reply := detail_page n; CityDetail.transform_fails := false;
     CityDetail.send_fails := true |}.

(** The ad of listing [n] arrives and the Core Service takes it. *)
Definition sink_accepts (n : Z) : CityDetail.Attempt :=
  {| CityDetail.reply := detail_page n; CityDetail.transform_fails := false;
     CityDetail.send_fails := false |}.

(** A detail page whose ad carries its id as a string. *)
Definition text_page : CityScraper.JsonReply :=
  CityScraper.JsonData
    (Js.JObj [("pageProps", Js.JObj [("ad", Js.JObj [("id", Js.JStr "7")])])]).

Definition text_attempt : CityDetail.Attempt :=
  {| CityDetail.reply := text_page; CityDetail.transform_fails := false;
     CityDetail.send_fails := false |}.

(** A client configured with a header of its own, a token and an API key. *)
Definition client_with_both : ApiHeaders.HeaderConfig :=
  {| ApiHeaders.userAgent := None;
     ApiHeaders.headers := {[ "Authorization" := "Basic abc" ]};
     ApiHeaders.authToken := Some "t0k";
     ApiHeaders.apiKey := Some "key" |}.

(** A client whose configured headers name a user agent of their own. *)
Definition client_with_agent : ApiHeaders.HeaderConfig :=
  {| ApiHeaders.userAgent := Some "landomo";
     ApiHeaders.headers := {[ "User-Agent" := "curl" ]};
     ApiHeaders.authToken := None;
     ApiHeaders.apiKey := Some "key" |}.

(** One request made since the period began at 5000 ms. *)
Definition busy_client : RateLimit.RateLimitState :=
  {| RateLimit.requestCount := 1; RateLimit.resetTime := Some 5000;
     RateLimit.remainingRequests := None |}.

(** An API that answers 401 to everything, with a token service that
    never fails. *)
Definition api_unauthorized : CoordinatorApi.World :=
  {| CoordinatorApi.replies := fun _ => CityScraper.JsonFails (AxiosError (Some 401));
     CoordinatorApi.refresh := fun _ => None |}.

(** An API that answers 401 twice and then serves a page of two ids. *)
Definition api_recovering : CoordinatorApi.World :=
  {| CoordinatorApi.replies := fun k =>
       if (k <? 2)%nat then CityScraper.JsonFails (AxiosError (Some 401))
       else CityScraper.JsonData
              (Js.JObj [("data", Js.JArr [Js.JObj [("id", Js.JNum 11)];
                                          Js.JObj [("id", Js.JNum 12)]]);
                        ("meta", Js.JObj [("total", Js.JNum 2)])]);
     CoordinatorApi.refresh := fun _ => None |}.

(** * Properties *)

(** ** The verifier's existence check *)

Lemma verify_url_ambiguous r :
  ambiguous r = true ->
  Verifier.verify_url r = if denied r then Return true else Continue.
Proof.
  unfold ambiguous, Verifier.verify_url, Verifier.verify_try, Verifier.verify_catch,
    axios_get, Verifier.validateStatus, denied.
  destruct r as [st body|]; [|reflexivity].
  destruct (st =? 404) eqn:E404; [discriminate|].
  destruct (st =? 403) eqn:E403.
  - intros _. replace (st <? 500) with true by lia. rewrite E404, E403. reflexivity.
  - destruct (500 <=? st) eqn:E500.
    + intros _. replace (st <? 500) with false by lia. rewrite E404. reflexivity.
    + replace (st <? 500) with true by lia. rewrite E404, E403.
      destruct body as [| | |[]]; intros; try reflexivity; discriminate.
Qed.

(** Among answers that settle nothing, only an access-denied one makes
    [verifyProperty] say that the listing exists. *)
Lemma verify_urls_ambiguous rs :
  Forall (fun r => ambiguous r = true) rs ->
  Verifier.verify_urls rs = existsb denied rs.
Proof.
  induction 1 as [|r rs Hr _ IH]; [reflexivity|].
  simpl. rewrite (verify_url_ambiguous r Hr). destruct (denied r); [reflexivity|exact IH].
Qed.

(** C1, as the code has it. When every URL form of a missing id gets an
    ambiguous or blocked answer, [verifyProperty] says "exists" exactly
    when one of the answers is an access-denied (403) one. In that case the
    verifier makes one call, [updateLastSeen]: neither [markPropertyInactive]
    nor [markVerifiedInactive]. Otherwise (network errors, server errors or
    pages without ad data on every URL form) it treats the id as inactive:
    it posts [markPropertyInactive] when an API key is configured and then
    calls [markVerifiedInactive]. *)
Theorem verifier_ambiguous_response env id s :
  Forall (fun r => ambiguous r = true) (map (http env) (listing_urls id)) ->
  let answers := map (http env) (listing_urls id) in
  let mark := SinkMarkInactive id "not_found" in
  let out := Verifier.processMissingProperty env id s in
  Verifier.verifyProperty env id = existsb denied answers /\
  trace (Verifier.world out.2) =
    trace (Verifier.world s) ++
      (if existsb denied answers then [QUpdateLastSeen id]
       else (if truthy_str (apiKey (cfg env)) then [mark] else []) ++
            (if truthy_str (apiKey (cfg env)) && sink_down env mark then []
             else [QMarkVerifiedInactive id])).
Proof.
  intros Hamb answers mark out.
  assert (Hv : Verifier.verifyProperty env id = existsb denied answers)
    by (apply verify_urls_ambiguous; exact Hamb).
  split; [exact Hv|].
  subst out. unfold Verifier.processMissingProperty, try_catch. rewrite Hv.
  destruct (existsb denied answers).
  - unfold bind, Verifier.lift, qcall, log, modify, bind, throw, ret, Verifier.incr_foundActive,
      modify. simpl.
    destruct (q_down env (QUpdateLastSeen id)); reflexivity.
  - unfold Core.markPropertyInactive, Core.post.
    destruct (truthy_str (apiKey (cfg env))); simpl.
    + unfold bind, Verifier.lift, qcall, log, modify, bind, throw, ret,
        Verifier.incr_verifiedInactive, modify. simpl. fold mark.
      destruct (sink_down env mark); simpl.
      * reflexivity.
      * destruct (q_down env (QMarkVerifiedInactive id)); simpl;
          rewrite <- app_assoc; reflexivity.
    + unfold bind, Verifier.lift, qcall, log, modify, bind, throw, ret,
        Verifier.incr_verifiedInactive, modify. simpl.
      destruct (q_down env (QMarkVerifiedInactive id)); reflexivity.
Qed.

(** The theorem at listing 7 of a portal that answers 403 to everything. *)
Lemma verifier_ambiguous_response_witness :
  Forall (fun r => ambiguous r = true) (map (http env_denied) (listing_urls "7")) /\
  trace (Verifier.world
           (Verifier.processMissingProperty env_denied "7" (Verifier.init Queue.empty)).2)
  = [QUpdateLastSeen "7"].
Proof.
  assert (H : Forall (fun r => ambiguous r = true) (map (http env_denied) (listing_urls "7")))
    by (repeat constructor).
  split; [exact H|].
  exact (proj2 (verifier_ambiguous_response env_denied "7" (Verifier.init Queue.empty) H)).
Defined.

(** C1 as stated fails: with every request timing out, and likewise with
    every URL form answering a page without ad data, the verifier posts
    [markPropertyInactive] and calls [markVerifiedInactive] for the id. *)
Lemma verifier_deactivates_on_ambiguity :
  Forall (fun r => ambiguous r = true) (map (http env_unreachable) (listing_urls "7")) /\
  trace (Verifier.world
           (Verifier.processMissingProperty env_unreachable "7" (Verifier.init Queue.empty)).2)
  = [SinkMarkInactive "7" "not_found"; QMarkVerifiedInactive "7"] /\
  Forall (fun r => ambiguous r = true) (map (http env_no_ad) (listing_urls "7")) /\
  trace (Verifier.world
           (Verifier.processMissingProperty env_no_ad "7" (Verifier.init Queue.empty)).2)
  = [SinkMarkInactive "7" "not_found"; QMarkVerifiedInactive "7"].
Proof. repeat split; repeat constructor. Qed.

(** ** The worker's per-id attempt *)

Ltac run_worker :=
  unfold Worker.processListing, Worker.processListing_try, Worker.processListing_catch,
    try_catch, bind, Worker.lift, Worker.lift_result, qcall, log, modify, throw, ret,
    Worker.transform, Worker.incr_processed, Worker.incr_failed, Worker.incr_changed,
    Worker.incr_unchanged, Core.sendToCoreService, Core.post, bind, log, modify,
    throw, ret; simpl.

(** C3. For an id that is not yet processed, whose detail fetch succeeds
    with a payload identical to the stored snapshot, and with the queue
    reachable: [hasPropertyChanged] returns false, the worker makes three
    queue calls and no Sink call, the unchanged and processed counters go up
    by one and the id is in the processed set afterwards. *)
Theorem worker_unchanged_skips_sink env id s p seen :
  Queue.isProcessed id (queue (Worker.world s)) = false ->
  Worker.fetchPropertyDetail env id = Ok (Some p) ->
  Queue.snapshots (queue (Worker.world s)) !! id = Some (Worker.rawData p, seen) ->
  q_down env (QIsProcessed id) = false ->
  q_down env (QHasPropertyChanged id) = false ->
  q_down env (QMarkProcessed id) = false ->
  let out := Worker.processListing env id s in
  Queue.hasPropertyChanged id (Worker.rawData p) (queue (Worker.world s)) = false /\
  out.1 = Ok true /\
  trace (Worker.world out.2) =
    trace (Worker.world s) ++ [QIsProcessed id; QHasPropertyChanged id; QMarkProcessed id] /\
  sink_ingests (trace (Worker.world out.2)) = sink_ingests (trace (Worker.world s)) /\
  Worker.unchangedCount out.2 = S (Worker.unchangedCount s) /\
  Worker.changedCount out.2 = Worker.changedCount s /\
  Worker.processedCount out.2 = S (Worker.processedCount s) /\
  id ∈ Queue.processed (queue (Worker.world out.2)) /\
  Queue.snapshots (queue (Worker.world out.2)) = Queue.snapshots (queue (Worker.world s)).
Proof.
  intros Hnew Hfetch Hsnap Hq1 Hq2 Hq3 out.
  assert (Hsame : Queue.hasPropertyChanged id (Worker.rawData p) (queue (Worker.world s))
                  = false).
  { unfold Queue.hasPropertyChanged. rewrite Hsnap. rewrite bool_decide_eq_true_2; done. }
  split; [exact Hsame|].
  subst out. run_worker.
  rewrite Hq1. simpl. rewrite Hnew. simpl. rewrite Hfetch. simpl. rewrite Hq2. simpl.
  rewrite Hsame. simpl. rewrite Hq3. simpl.
  repeat split.
  - rewrite <- !app_assoc. reflexivity.
  - unfold sink_ingests. rewrite <- !app_assoc, List.filter_app. simpl. apply app_nil_r.
  - set_solver.
Qed.

(** The theorem at listing 7, whose snapshot the queue already holds. *)
Lemma worker_unchanged_skips_sink_witness :
  Queue.hasPropertyChanged "7" ad7 queue_with_snapshot = false /\
  trace (Worker.world
           (Worker.processListing env_listed_key "7" (Worker.init queue_with_snapshot)).2)
  = [QIsProcessed "7"; QHasPropertyChanged "7"; QMarkProcessed "7"].
Proof.
  pose proof (worker_unchanged_skips_sink env_listed_key "7" (Worker.init queue_with_snapshot)
                {| Worker.prop_id := "7"; Worker.rawData := ad7 |} 1600000000000
                eq_refl eq_refl eq_refl eq_refl eq_refl eq_refl) as H.
  split; [exact (proj1 H)|exact (proj1 (proj2 (proj2 H)))].
Defined.

(** C2, as the code has it. For an id that is not yet processed, whose
    detail fetch succeeds with a payload that differs from the stored
    snapshot or has none, and when no later step fails:
    [hasPropertyChanged] returns true; the Sink receives exactly one Ingest
    request when an API key is configured and none otherwise; the snapshot
    is then set to the new payload and the id marked processed. *)
Theorem worker_changed_ingests_then_snapshots env id s p :
  Queue.isProcessed id (queue (Worker.world s)) = false ->
  Worker.fetchPropertyDetail env id = Ok (Some p) ->
  match Queue.snapshots (queue (Worker.world s)) !! id with
  | Some (old, _) => old <> Worker.rawData p
  | None => True
  end ->
  (forall c, q_down env c = false) ->
  transform_throws env (Worker.rawData p) = false ->
  sink_down env (SinkIngest (Worker.prop_id p) (Worker.rawData p)) = false ->
  let out := Worker.processListing env id s in
  Queue.hasPropertyChanged id (Worker.rawData p) (queue (Worker.world s)) = true /\
  out.1 = Ok true /\
  trace (Worker.world out.2) =
    trace (Worker.world s) ++ [QIsProcessed id; QHasPropertyChanged id] ++
      (if truthy_str (apiKey (cfg env))
       then [SinkIngest (Worker.prop_id p) (Worker.rawData p)] else []) ++
      [QStorePropertySnapshot id (Worker.rawData p); QMarkProcessed id] /\
  Queue.snapshots (queue (Worker.world out.2)) !! id = Some (Worker.rawData p, now env) /\
  Worker.changedCount out.2 = S (Worker.changedCount s) /\
  Worker.processedCount out.2 = S (Worker.processedCount s).
Proof.
  intros Hnew Hfetch Hsnap Hq Htr Hsink out.
  assert (Hdiff : Queue.hasPropertyChanged id (Worker.rawData p) (queue (Worker.world s))
                  = true).
  { unfold Queue.hasPropertyChanged.
    destruct (Queue.snapshots (queue (Worker.world s)) !! id) as [[old seen]|]; [|reflexivity].
    rewrite bool_decide_eq_false_2; done. }
  split; [exact Hdiff|].
  subst out. run_worker.
  rewrite !Hq. simpl. rewrite Hnew. simpl. rewrite Hfetch. simpl.
  rewrite Hdiff. simpl. rewrite Htr. simpl.
  destruct (truthy_str (apiKey (cfg env))); simpl.
  - rewrite Hsink. simpl. rewrite !Hq. simpl.
    repeat split.
    + rewrite <- !app_assoc. reflexivity.
    + apply lookup_insert_eq.
  - rewrite !Hq. simpl.
    repeat split.
    + rewrite <- !app_assoc. reflexivity.
    + apply lookup_insert_eq.
Qed.

(** The theorem at listing 7, new to the queue, with an API key set. *)
Lemma worker_changed_ingests_then_snapshots_witness :
  Queue.hasPropertyChanged "7" ad7 Queue.empty = true /\
  trace (Worker.world (Worker.processListing env_listed_key "7" (Worker.init Queue.empty)).2)
  = [QIsProcessed "7"; QHasPropertyChanged "7"; SinkIngest "7" ad7;
     QStorePropertySnapshot "7" ad7; QMarkProcessed "7"].
Proof.
  pose proof (worker_changed_ingests_then_snapshots env_listed_key "7" (Worker.init Queue.empty)
                {| Worker.prop_id := "7"; Worker.rawData := ad7 |}
                eq_refl eq_refl I (fun _ => eq_refl) eq_refl eq_refl) as H.
  split; [exact (proj1 H)|exact (proj1 (proj2 (proj2 H)))].
Defined.

(** C2 as stated fails: under the default configuration, which has no API
    key, a new listing is fetched, found changed and marked processed
    without any Ingest request reaching the Sink. *)
Lemma worker_skips_sink_without_key :
  Queue.isProcessed "7" Queue.empty = false /\
  Worker.fetchPropertyDetail env_listed "7"
    = Ok (Some {| Worker.prop_id := "7"; Worker.rawData := ad7 |}) /\
  Queue.snapshots Queue.empty !! "7" = None /\
  Queue.hasPropertyChanged "7" ad7 Queue.empty = true /\
  (Worker.processListing env_listed "7" (Worker.init Queue.empty)).1 = Ok true /\
  sink_ingests
    (trace (Worker.world (Worker.processListing env_listed "7" (Worker.init Queue.empty)).2))
  = [].
Proof. repeat split. Qed.

Lemma fetch_urls_not_found id rs :
  Forall (fun r => not_found r = true) rs -> Worker.fetch_urls id rs = Ok None.
Proof.
  induction 1 as [|r rs Hr _ IH]; [reflexivity|].
  simpl. destruct r as [st body|]; [|discriminate]. simpl in Hr.
  unfold Worker.fetch_url, Worker.fetch_try, axios_get, default_validateStatus,
    Worker.fetch_catch.
  replace ((200 <=? st) && (st <? 300)) with false by lia.
  rewrite Hr. exact IH.
Qed.

(** C4. For an id that is not yet processed and whose every URL form
    answers 404, with the queue reachable: the worker returns false after
    exactly two queue calls, the processed check and one
    [markFailed(id, 'Not found')]; it makes no requeue call, the pending and
    missing channels are as before, and the id holds no retry record. *)
Theorem worker_not_found_dropped env id s :
  Queue.isProcessed id (queue (Worker.world s)) = false ->
  q_down env (QIsProcessed id) = false ->
  q_down env (QMarkFailed id "Not found") = false ->
  Forall (fun r => not_found r = true) (map (http env) (listing_urls id)) ->
  let out := Worker.processListing env id s in
  out.1 = Ok false /\
  trace (Worker.world out.2)
  = trace (Worker.world s) ++ [QIsProcessed id; QMarkFailed id "Not found"] /\
  Queue.pending (queue (Worker.world out.2)) = Queue.pending (queue (Worker.world s)) /\
  Queue.missing (queue (Worker.world out.2)) = Queue.missing (queue (Worker.world s)) /\
  Queue.retries (queue (Worker.world out.2)) !! id = None /\
  Queue.failed (queue (Worker.world out.2)) !! id = Some "Not found" /\
  id ∉ Queue.processed (queue (Worker.world out.2)).
Proof.
  intros Hnew Hq1 Hq2 H404 out.
  pose proof (fetch_urls_not_found id _ H404) as Hfetch.
  fold (Worker.fetchPropertyDetail env id) in Hfetch.
  subst out. run_worker.
  rewrite Hq1. simpl. rewrite Hnew. simpl. rewrite Hfetch. simpl. rewrite Hq2. simpl.
  repeat split.
  - rewrite <- !app_assoc. reflexivity.
  - apply lookup_delete_eq.
  - apply lookup_insert_eq.
  - unfold Queue.isProcessed in Hnew. apply bool_decide_eq_false_1 in Hnew. exact Hnew.
Qed.

(** The theorem at listing 42 of a portal that answers 404 to everything. *)
Lemma worker_not_found_dropped_witness :
  Forall (fun r => not_found r = true) (map (http env_gone) (listing_urls "42")) /\
  trace (Worker.world (Worker.processListing env_gone "42" (Worker.init Queue.empty)).2)
  = [QIsProcessed "42"; QMarkFailed "42" "Not found"].
Proof.
  assert (H : Forall (fun r => not_found r = true) (map (http env_gone) (listing_urls "42")))
    by (repeat constructor).
  split; [exact H|].
  exact (proj1 (proj2 (worker_not_found_dropped env_gone "42" (Worker.init Queue.empty)
                         eq_refl eq_refl eq_refl H))).
Defined.

(** What the [try] block leaves behind when the detail fetch, the
    transformer or the Core Service call throws: the queue and the counters
    as they were, and nothing but reads and the Sink request in the trace. *)
Lemma try_block_throw_clean env id s e s1 :
  Worker.processListing_try env id s = (Throw e, s1) ->
  from_fetch_transform_or_sink e ->
  exists calls,
    trace (Worker.world s1) = trace (Worker.world s) ++ calls /\
    List.filter is_queue_mutation calls = [] /\
    queue (Worker.world s1) = queue (Worker.world s) /\
    Worker.processedCount s1 = Worker.processedCount s /\
    Worker.failedCount s1 = Worker.failedCount s /\
    Worker.changedCount s1 = Worker.changedCount s /\
    Worker.unchangedCount s1 = Worker.unchangedCount s.
Proof.
  unfold from_fetch_transform_or_sink. intros Hrun He. revert Hrun. run_worker.
  destruct (q_down env (QIsProcessed id)); simpl;
    [intros [= <- <-]; destruct He as [|[|]]; discriminate|].
  destruct (Queue.isProcessed id (queue (Worker.world s))); simpl; [intros [=]|].
  destruct (Worker.fetchPropertyDetail env id) as [[p|]|e']; simpl.
  - destruct (q_down env (QHasPropertyChanged id)); simpl;
      [intros [= <- <-]; destruct He as [|[|]]; discriminate|].
    destruct (Queue.hasPropertyChanged id (Worker.rawData p) (queue (Worker.world s))); simpl.
    + destruct (transform_throws env (Worker.rawData p)); simpl.
      * intros [= <- <-]. exists [QIsProcessed id; QHasPropertyChanged id]. simpl.
        rewrite <- !app_assoc. repeat split; reflexivity.
      * destruct (truthy_str (apiKey (cfg env))); simpl.
        -- destruct (sink_down env (SinkIngest (Worker.prop_id p) (Worker.rawData p))); simpl.
           ++ intros [= <- <-].
              exists [QIsProcessed id; QHasPropertyChanged id;
                      SinkIngest (Worker.prop_id p) (Worker.rawData p)]. simpl.
              rewrite <- !app_assoc. repeat split; reflexivity.
           ++ destruct (q_down env (QStorePropertySnapshot id (Worker.rawData p))); simpl;
                [intros [= <- <-]; destruct He as [|[|]]; discriminate|].
              destruct (q_down env (QMarkProcessed id)); simpl;
                [intros [= <- <-]; destruct He as [|[|]]; discriminate|intros [=]].
        -- destruct (q_down env (QStorePropertySnapshot id (Worker.rawData p))); simpl;
             [intros [= <- <-]; destruct He as [|[|]]; discriminate|].
           destruct (q_down env (QMarkProcessed id)); simpl;
             [intros [= <- <-]; destruct He as [|[|]]; discriminate|intros [=]].
    + destruct (q_down env (QMarkProcessed id)); simpl;
        [intros [= <- <-]; destruct He as [|[|]]; discriminate|intros [=]].
  - destruct (q_down env (QMarkFailed id "Not found")); simpl;
      [intros [= <- <-]; destruct He as [|[|]]; discriminate|intros [=]].
  - intros [= <- <-]. exists [QIsProcessed id]. simpl.
    repeat split; reflexivity.
Qed.

Lemma processListing_catches env id s e s1 :
  Worker.processListing_try env id s = (Throw e, s1) ->
  Worker.processListing env id s = Worker.processListing_catch env id s1.
Proof. intros H. unfold Worker.processListing, try_catch. rewrite H. reflexivity. Qed.

(** C8. When the [try] block of [processListing] throws an error of the
    detail fetch, the transformer or the Core Service call: the one queue
    mutation of the attempt is a single [requeueWithRetry(id, 3)]; the
    snapshots, the processed set and the processed, changed and unchanged
    counters are as before; and the failed counter goes up by one exactly
    when that call returns false (not at all when the call itself fails on
    an unreachable store). *)
Theorem worker_error_path_atomic env id s e s1 :
  Worker.processListing_try env id s = (Throw e, s1) ->
  from_fetch_transform_or_sink e ->
  let out := Worker.processListing env id s in
  let q0 := queue (Worker.world s) in
  let requeue := QRequeueWithRetry id 3 in
  (exists calls,
      trace (Worker.world out.2) = trace (Worker.world s) ++ calls /\
      List.filter is_queue_mutation calls = [requeue]) /\
  Queue.snapshots (queue (Worker.world out.2)) = Queue.snapshots q0 /\
  Queue.processed (queue (Worker.world out.2)) = Queue.processed q0 /\
  Worker.processedCount out.2 = Worker.processedCount s /\
  Worker.changedCount out.2 = Worker.changedCount s /\
  Worker.unchangedCount out.2 = Worker.unchangedCount s /\
  (if q_down env requeue
   then out.1 = Throw (QueueError requeue) /\
        queue (Worker.world out.2) = q0 /\
        Worker.failedCount out.2 = Worker.failedCount s
   else out.1 = Ok false /\
        queue (Worker.world out.2) = (Queue.requeueWithRetry id 3 q0).2 /\
        Worker.failedCount out.2 =
          (Worker.failedCount s + if (Queue.requeueWithRetry id 3 q0).1 then 0 else 1)%nat).
Proof.
  intros Hrun He out q0 requeue.
  destruct (try_block_throw_clean env id s e s1 Hrun He)
    as (calls & Htr & Hread & Hq & Hp & Hf & Hc & Hu).
  subst out. rewrite (processListing_catches env id s e s1 Hrun).
  unfold Worker.processListing_catch, bind, Worker.lift, qcall, log, modify, throw, ret,
    Worker.incr_failed, bind, modify. simpl. fold requeue.
  destruct (q_down env requeue); simpl.
  - rewrite Htr, Hq, Hp, Hf, Hc, Hu. repeat split; try reflexivity.
    exists (calls ++ [requeue]). rewrite <- app_assoc. split; [reflexivity|].
    rewrite List.filter_app, Hread. reflexivity.
  - rewrite Hq. fold q0.
    assert (Hsnap : Queue.snapshots (Queue.requeueWithRetry id 3 q0).2 = Queue.snapshots q0
                    /\ Queue.processed (Queue.requeueWithRetry id 3 q0).2 = Queue.processed q0).
    { unfold Queue.requeueWithRetry.
      destruct (S (default 0%nat (Queue.retries q0 !! id)) <? 3)%nat; split; reflexivity. }
    destruct Hsnap as [Hs1 Hs2].
    destruct (Queue.requeueWithRetry id 3 q0) as [requeued q1] eqn:Ereq. simpl in *.
    destruct requeued; simpl; rewrite ?Htr, ?Hp, ?Hf, ?Hc, ?Hu; repeat split; try done;
      try lia;
      exists (calls ++ [requeue]); rewrite <- app_assoc; (split; [reflexivity|]);
      rewrite List.filter_app, Hread; reflexivity.
Qed.

(** The theorem at listing 7 of a portal that answers 403: the fetch throws
    the bot-detection error, the id is requeued and not counted as failed. *)
Lemma worker_error_path_atomic_witness :
  Worker.processListing_try env_denied "7" (Worker.init Queue.empty)
  = (Throw BotDetection,
     (Worker.processListing_try env_denied "7" (Worker.init Queue.empty)).2) /\
  (Worker.processListing env_denied "7" (Worker.init Queue.empty)).1 = Ok false /\
  Worker.failedCount (Worker.processListing env_denied "7" (Worker.init Queue.empty)).2 = 0%nat.
Proof.
  pose proof (worker_error_path_atomic env_denied "7" (Worker.init Queue.empty) BotDetection _
                eq_refl (or_introl eq_refl)) as H.
  split; [reflexivity|].
  destruct H as (_ & _ & _ & _ & _ & _ & H). simpl in H.
  split; [exact (proj1 H)|exact (proj2 (proj2 H))].
Defined.

(** ** The polling loops *)

Lemma worker_loop_idles_out env c rest s :
  (c < Worker.maxEmptyChecks)%nat ->
  Worker.loop env (repeat (Pop None) (Worker.maxEmptyChecks - c) ++ rest) c s
  = (s, Worker.maxEmptyChecks, Stopped rest).
Proof.
  unfold Worker.maxEmptyChecks. intros Hc.
  do 10 (destruct c as [|c]; [reflexivity|]). lia.
Qed.

Lemma verifier_loop_idles_out env c rest s :
  (c < Verifier.maxEmptyChecks)%nat ->
  Verifier.loop env (repeat (Pop None) (Verifier.maxEmptyChecks - c) ++ rest) c s
  = (s, Verifier.maxEmptyChecks, Stopped rest).
Proof.
  unfold Verifier.maxEmptyChecks. intros Hc.
  do 10 (destruct c as [|c]; [reflexivity|]). lia.
Qed.

(** C6, as the code has it. In the worker loop and in the verifier loop
    alike, once the consecutive-empty count is [c], [10 - c] further empty
    polls end the loop, leaving the polls after them unread; the number is
    the constant 10 of both loops. A pop that returns a non-empty id sets
    the count back to zero before the id is processed. *)
Theorem loops_stop_after_ten_empty_polls env c rest :
  (c < 10)%nat ->
  (forall s, Worker.loop env (repeat (Pop None) (10 - c) ++ rest) c s
             = (s, 10%nat, Stopped rest)) /\
  (forall s, Verifier.loop env (repeat (Pop None) (10 - c) ++ rest) c s
             = (s, 10%nat, Stopped rest)) /\
  (forall s id polls,
      truthy_str id = true ->
      Worker.loop env (Pop (Some id) :: polls) c s
      = Worker.loop env polls 0 (Worker.processListing env id s).2) /\
  (forall s id polls,
      truthy_str id = true ->
      Verifier.loop env (Pop (Some id) :: polls) c s
      = Verifier.loop env polls 0 (Verifier.processMissingProperty env id s).2).
Proof.
  intros Hc. repeat split; intros.
  - apply worker_loop_idles_out. exact Hc.
  - apply verifier_loop_idles_out. exact Hc.
  - simpl. rewrite H. destruct (Worker.processListing env id s). reflexivity.
  - simpl. rewrite H. destruct (Verifier.processMissingProperty env id s). reflexivity.
Qed.

(** The theorem at a fresh worker: ten empty polls, and the id that comes
    after them is left in the queue. *)
Lemma loops_stop_after_ten_empty_polls_witness :
  (0 < 10)%nat /\
  Worker.start env_unreachable (repeat (Pop None) 10 ++ [Pop (Some "7")])
    (Worker.init Queue.empty)
  = (Worker.init Queue.empty, 10%nat, Stopped [Pop (Some "7")]).
Proof.
  split; [lia|].
  exact (proj1 (loops_stop_after_ten_empty_polls env_unreachable 0 [Pop (Some "7")]
                  ltac:(lia))
           (Worker.init Queue.empty)).
Defined.

(** C6 as stated fails: the number of empty polls is not a setting. Under
    no environment, whatever its configuration, does either loop stop after
    nine consecutive empty polls. *)
Lemma nine_empty_polls_never_stop :
  ~ (exists env ws vs,
        (Worker.start env (repeat (Pop None) 9) ws).2 <> Polling \/
        (Verifier.start env (repeat (Pop None) 9) vs).2 <> Polling).
Proof. intros (env & ws & vs & [H|H]); apply H; reflexivity. Qed.

(** Nine empty polls, an id, nine empty polls: the count starts again at
    the id and the worker is still polling. *)
Example worker_count_restarts :
  (Worker.start env_gone (repeat (Pop None) 9 ++ [Pop (Some "42")] ++ repeat (Pop None) 9)
     (Worker.init Queue.empty)).2 = Polling.
Proof. reflexivity. Qed.

(** ** The coordinator's pagination *)

Lemma requested_app tr1 tr2 :
  Coordinator.requested (tr1 ++ tr2) = Coordinator.requested tr1 ++ Coordinator.requested tr2.
Proof. unfold Coordinator.requested. apply omap_app. Qed.

Section pagination.
Variable env : Env.
Variable src : Coordinator.Source.
Hypothesis queue_up : forall c, q_down env c = false.
Hypothesis source_answers : forall off, exists ids t, src off = Coordinator.Page ids t.

(** One turn of the while loop. *)
Lemma fetch_remaining_step total offset added ids t w :
  offset < total ->
  src offset = Coordinator.Page ids t ->
  Coordinator.fetch_remaining env src total offset added w
  = Coordinator.fetch_remaining env src total (offset + Coordinator.limit)
      (added + (Queue.pushListingIds ids (queue w)).1)%nat
      {| queue := (Queue.pushListingIds ids (queue w)).2;
         trace := trace w ++ [ApiListings offset Coordinator.limit; QPushListingIds ids] |}.
Proof.
  intros Hlt Hsrc.
  assert (Hfetch : Coordinator.fetchListingIds src offset w
                   = (Ok (ids, t),
                      {| queue := queue w;
                         trace := trace w ++ [ApiListings offset Coordinator.limit] |})).
  { unfold Coordinator.fetchListingIds, bind, log, modify, ret. simpl. rewrite Hsrc.
    reflexivity. }
  rewrite Coordinator.fetch_remaining_equation_1.
  destruct (decide (offset < total)) as [Hy|Hn]; [|contradiction].
  simpl. rewrite Hfetch. simpl.
  unfold Coordinator.pushListingIds, qcall, bind, log, modify. simpl.
  rewrite queue_up. simpl.
  destruct (Queue.pushListingIds ids (queue w)) as [n q'] eqn:Epush. simpl.
  rewrite <- app_assoc. reflexivity.
Qed.

Lemma fetch_remaining_done total offset added w :
  total <= offset ->
  Coordinator.fetch_remaining env src total offset added w = (Ok added, w).
Proof.
  intros Hge. rewrite Coordinator.fetch_remaining_equation_1.
  destruct (decide (offset < total)) as [Hlt|Hn]; [lia|]. reflexivity.
Qed.

(** The loop returns, after one request per step of 50 below [total]. *)
Lemma fetch_remaining_requests total n : forall offset added w,
  n = Z.to_nat ((total - offset + Coordinator.limit - 1) / Coordinator.limit) ->
  exists added',
    (Coordinator.fetch_remaining env src total offset added w).1 = Ok added' /\
    Coordinator.requested (trace (Coordinator.fetch_remaining env src total offset added w).2)
    = Coordinator.requested (trace w)
      ++ List.map (fun i => offset + Coordinator.limit * Z.of_nat i) (seq 0 n).
Proof.
  unfold Coordinator.limit. induction n as [|n IH]; intros offset added w Hn.
  - assert (total <= offset).
    { destruct (Z_lt_le_dec offset total) as [Hlt|]; [|assumption].
      assert (1 <= (total - offset + 50 - 1) / 50) by (apply Z.div_le_lower_bound; lia). lia. }
    rewrite fetch_remaining_done by assumption. exists added. simpl.
    rewrite app_nil_r. split; reflexivity.
  - assert (offset < total).
    { destruct (Z_lt_le_dec offset total) as [|Hge]; [assumption|].
      assert ((total - offset + 50 - 1) / 50 <= 0)
        by (apply Z.lt_succ_r, Z.div_lt_upper_bound; lia). lia. }
    destruct (source_answers offset) as (ids & t & Hpage).
    rewrite (fetch_remaining_step total offset added ids t w) by auto.
    unfold Coordinator.limit.
    edestruct (IH (offset + 50) (added + (Queue.pushListingIds ids (queue w)).1)%nat
                 {| queue := (Queue.pushListingIds ids (queue w)).2;
                    trace := trace w ++ [ApiListings offset 50; QPushListingIds ids] |})
      as (added' & Hres & Hreq).
    { replace (total - (offset + 50) + 50 - 1)
        with ((total - offset + 50 - 1) + (-1) * 50) by lia.
      rewrite Z.div_add by lia. lia. }
    exists added'. split; [exact Hres|].
    rewrite Hreq. simpl trace. rewrite requested_app. simpl.
    rewrite <- app_assoc. simpl. f_equal. f_equal.
    + lia.
    + rewrite <- seq_shift, List.map_map. apply List.map_ext. intros i. lia.
Qed.

(** C5, as the code has it. When the search API answers every request and
    the queue is reachable, [discoverCity] requests offset 0 and then the
    offsets 50, 100, ... below the total advertised by the first page, and
    no others: the walk is fixed by that first total alone, whatever ids
    the pages carry and whatever totals later pages advertise, and it has no
    page-count bound of its own. *)
Theorem discovery_pages_follow_first_total ids0 total w :
  src 0 = Coordinator.Page ids0 total ->
  Coordinator.requested (trace (Coordinator.discoverCity env src w).2)
  = Coordinator.requested (trace w) ++ 0 :: offsets_below total.
Proof.
  intros H0.
  unfold Coordinator.discoverCity, try_catch, bind, Coordinator.fetchListingIds at 1, bind,
    log, modify, ret. simpl.
  rewrite H0. simpl.
  destruct (total =? 0) eqn:Et; simpl.
  - apply Z.eqb_eq in Et. subst total. rewrite requested_app. reflexivity.
  - unfold Coordinator.pushListingIds at 1, qcall, bind, log, modify. simpl.
    rewrite queue_up. simpl.
    destruct (Queue.pushListingIds ids0 (queue w)) as [n0 q1] eqn:Epush. simpl.
    match goal with
    | |- context [Coordinator.fetch_remaining env src total ?o ?a ?w'] =>
        destruct (fetch_remaining_requests total
                    (Z.to_nat ((total - o + Coordinator.limit - 1) / Coordinator.limit))
                    o a w' eq_refl)
          as (added' & Hres & Hreq);
        destruct (Coordinator.fetch_remaining env src total o a w') as [r w2] eqn:Eloop
    end.
    simpl in Hres, Hreq. subst r. simpl. rewrite Hreq. simpl trace.
    rewrite !requested_app. simpl. rewrite <- !app_assoc. simpl. f_equal. f_equal.
    unfold offsets_below, Coordinator.limit.
    replace (total - (0 + 50) + 50 - 1) with (total - 1) by lia.
    rewrite <- seq_shift, List.map_map. apply List.map_ext. intros i. lia.
Qed.

End pagination.

(** The theorem at a portal that advertises 120 listings. *)
Lemma discovery_pages_follow_first_total_witness :
  (forall c, q_down env_unreachable c = false) /\
  source_numbered 120 0 = Coordinator.Page ["0"] 120 /\
  Coordinator.requested
    (trace (Coordinator.discoverCity env_unreachable (source_numbered 120)
              Coordinator.fresh).2)
  = [0; 50; 100].
Proof.
  split; [intro c; reflexivity|]. split; [reflexivity|].
  exact (discovery_pages_follow_first_total env_unreachable (source_numbered 120)
           (fun _ => eq_refl) (fun off => ex_intro _ _ (ex_intro _ _ eq_refl))
           ["0"] 120 Coordinator.fresh eq_refl).
Defined.

(** C5 as stated fails: two portals that serve the same ids at every offset
    and differ only in the total they advertise are walked differently, one
    page against three; and a portal whose pages after the first are empty
    and advertise a total of 0 is still asked for every page the first
    total announced. *)
Lemma discovery_follows_advertised_total :
  (forall off, page_ids (source_numbered 50 off) = page_ids (source_numbered 120 off)) /\
  Coordinator.requested
    (trace (Coordinator.discoverCity env_unreachable (source_numbered 50)
              Coordinator.fresh).2) = [0] /\
  Coordinator.requested
    (trace (Coordinator.discoverCity env_unreachable (source_numbered 120)
              Coordinator.fresh).2) = [0; 50; 100] /\
  Coordinator.requested
    (trace (Coordinator.discoverCity env_unreachable source_drying_up
              Coordinator.fresh).2) = [0; 50; 100].
Proof. repeat split. Qed.

(** ** Retry delays *)


(** The retry loop of [scrapeCity] backs off at most [maxRetries] times. *)
Lemma retry_loop_sleeps_bounded c throws : forall retries,
  (length (CityScraper.sleeps (CityScraper.retry_loop c throws retries))
   <= S (CityScraper.maxRetries - retries))%nat.
Proof.
  induction throws as [|[|] throws IH]; intros retries; cbn [CityScraper.retry_loop].
  - destruct (retries <=? CityScraper.maxRetries)%nat; simpl; lia.
  - destruct (retries <=? CityScraper.maxRetries)%nat eqn:E; [|simpl; lia].
    destruct (CityScraper.maxRetries <? S retries)%nat eqn:E'; [simpl; lia|].
    specialize (IH (S retries)). apply Nat.ltb_ge in E'.
    cbn [CityScraper.sleeps length]. lia.
  - destruct (retries <=? CityScraper.maxRetries)%nat; simpl; lia.
Qed.




(** ** Discovery pages of the city scraper *)

Lemma fetchListingIds_total reply : exists page, CityScraper.fetchListingIds reply = Ok page.
Proof.
  unfold CityScraper.fetchListingIds.
  destruct (CityScraper.fetchListingIds_try reply); eauto.
Qed.

(** C9. [fetchListingIds] returns a page for every outcome of the request
    and never throws. For an HTTP, network or parse failure, and for a body
    without [pageProps.data.searchAds.items], the page is
    [{ ids: [], total: 0 }], the very page a search with no results
    produces. *)
Theorem fetchListingIds_failure_looks_empty reply :
  failed_or_lacks_items reply ->
  CityScraper.fetchListingIds reply = Ok CityScraper.empty_page /\
  CityScraper.fetchListingIds reply
  = CityScraper.fetchListingIds (CityScraper.JsonData CityScraper.legitimately_empty) /\
  (forall r, exists page, CityScraper.fetchListingIds r = Ok page).
Proof.
  intros H.
  assert (He : CityScraper.fetchListingIds reply = Ok CityScraper.empty_page).
  { unfold CityScraper.fetchListingIds, CityScraper.fetchListingIds_try.
    destruct reply as [d|e]; simpl in H; [rewrite H|]; reflexivity. }
  split; [exact He|]. split; [rewrite He; reflexivity|].
  exact fetchListingIds_total.
Qed.

(** The theorem at a 503 answer. *)
Lemma fetchListingIds_failure_looks_empty_witness :
  failed_or_lacks_items (CityScraper.JsonFails (AxiosError (Some 503))) /\
  CityScraper.fetchListingIds (CityScraper.JsonFails (AxiosError (Some 503)))
  = Ok {| CityScraper.ids := []; CityScraper.total := Js.JNum 0 |}.
Proof.
  split; [exact I|].
  exact (proj1 (fetchListingIds_failure_looks_empty
                  (CityScraper.JsonFails (AxiosError (Some 503))) I)).
Defined.

(** A throw inside the [try] block is swallowed as well: an item that is
    null, or [items] that is no array. *)
Example fetchListingIds_swallows_type_errors :
  CityScraper.fetchListingIds
    (CityScraper.JsonData
       (Js.JObj [("pageProps",
                  Js.JObj [("data",
                            Js.JObj [("searchAds",
                                      Js.JObj [("items", Js.JArr [Js.JNull])])])])]))
  = Ok CityScraper.empty_page /\
  CityScraper.fetchListingIds
    (CityScraper.JsonData
       (Js.JObj [("pageProps",
                  Js.JObj [("data",
                            Js.JObj [("searchAds",
                                      Js.JObj [("items", Js.JStr "none")])])])]))
  = Ok CityScraper.empty_page.
Proof. split; reflexivity. Qed.

(** ** The transformer's classification *)

Lemma transaction_type_listed p :
  Transformer.transaction_type (Transformer.transformToStandard p)
  ∈ Transformer.transaction_types.
Proof.
  unfold Transformer.transformToStandard, Transformer.transaction_types. simpl.
  destruct (Transformer.listingType p); simpl; set_solver.
Qed.

Lemma country_is_poland p :
  Transformer.country (Transformer.std_location (Transformer.transformToStandard p))
  = "poland".
Proof. reflexivity. Qed.

(** Away from the names every object literal inherits, the property type
    is one of the five. *)
Lemma property_type_listed p :
  Transformer.toLowerCase (Transformer.propertyType p) ∉ Transformer.object_prototype_keys ->
  Transformer.property_type (Transformer.transformToStandard p) ∈ Transformer.property_types.
Proof.
  intros Hkey. unfold Transformer.transformToStandard. simpl.
  unfold Transformer.lookup_literal. rewrite (bool_decide_eq_false_2 _ Hkey).
  generalize (Transformer.toLowerCase (Transformer.propertyType p)). intros key.
  unfold Transformer.propertyTypeMap, Js.assoc, Transformer.property_types.
  repeat (destruct (String.eqb key _); [simpl; set_solver|]).
  simpl. set_solver.
Qed.

(** C10 at an input the code mishandles. For a listing whose type is the
    string "constructor", the lookup in [propertyTypeMap] finds the member
    every object literal inherits, which is truthy, so [|| 'other'] does not
    apply and [property_type] is none of the five strings; for the type
    "Dom" it is 'house'. *)
Theorem transform_inherits_property_type :
  Transformer.property_type (Transformer.transformToStandard (listing_of_type "constructor"))
  = Transformer.VInherited "constructor" /\
  (Transformer.property_type (Transformer.transformToStandard (listing_of_type "constructor"))
   ∉ Transformer.property_types) /\
  Transformer.property_type (Transformer.transformToStandard (listing_of_type "Dom"))
  = Transformer.VStr "house".
Proof.
  split; [reflexivity|]. split; [|reflexivity].
  replace (Transformer.property_type
             (Transformer.transformToStandard (listing_of_type "constructor")))
    with (Transformer.VInherited "constructor") by reflexivity.
  unfold Transformer.property_types. intros H.
  repeat (apply elem_of_cons in H as [H|H]; [discriminate|]).
  inversion H.
Qed.

(** * Further properties *)

(** ** The verifier's verdicts *)

Ltac run_verifier :=
  unfold Verifier.processMissingProperty, try_catch, Core.markPropertyInactive, Core.post,
    bind, Verifier.lift, qcall, log, modify, throw, ret, Verifier.incr_foundActive,
    Verifier.incr_verifiedInactive, bind, log, modify, throw, ret; simpl.

Ltac split_ifs :=
  repeat match goal with
         | |- context [if ?b then _ else _] => destruct b eqn:?; simpl
         end.

(** One id handled by the verifier: either it is settled and exactly one
    of the two counters goes up by one, or the attempt failed and both
    counters stay. *)
Lemma processMissingProperty_counts env id s :
  let out := Verifier.processMissingProperty env id s in
  (out.1 = Ok true /\
   (Verifier.foundActiveCount out.2 + Verifier.verifiedInactiveCount out.2
    = S (Verifier.foundActiveCount s + Verifier.verifiedInactiveCount s))%nat) \/
  (out.1 = Ok false /\
   Verifier.foundActiveCount out.2 = Verifier.foundActiveCount s /\
   Verifier.verifiedInactiveCount out.2 = Verifier.verifiedInactiveCount s).
Proof.
  run_verifier. split_ifs; (left; split; [reflexivity|lia]) || (right; repeat split).
Qed.

Lemma verify_url_inconclusive r :
  inconclusive r = true -> Verifier.verify_url r = Continue.
Proof.
  unfold inconclusive. intros H. apply andb_prop in H as [Ha Hd].
  rewrite (verify_url_ambiguous r Ha). apply negb_true_iff in Hd. rewrite Hd. reflexivity.
Qed.

Lemma verify_urls_skip pre rest :
  Forall (fun r => inconclusive r = true) pre ->
  Verifier.verify_urls (pre ++ rest) = Verifier.verify_urls rest.
Proof.
  induction 1 as [|r pre Hr _ IH]; [reflexivity|].
  simpl. rewrite (verify_url_inconclusive r Hr). exact IH.
Qed.

Lemma verify_url_not_found r : not_found r = true -> Verifier.verify_url r = Return false.
Proof.
  destruct r as [st body|]; [|discriminate]. simpl. intros H.
  unfold Verifier.verify_url, Verifier.verify_try, axios_get, Verifier.validateStatus.
  replace (st <? 500) with true by lia. rewrite H. reflexivity.
Qed.

Lemma verify_url_shows_ad r : shows_ad r = true -> Verifier.verify_url r = Return true.
Proof.
  destruct r as [st [| | |[| |i] raw]|]; try discriminate. simpl. intros H.
  unfold Verifier.verify_url, Verifier.verify_try, axios_get, Verifier.validateStatus.
  replace (st <? 500) with true by lia.
  replace (st =? 404) with false by lia. replace (st =? 403) with false by lia. reflexivity.
Qed.

(** X1. The first URL form that settles the matter decides. When the
    answers before it are inconclusive and it is a 404, the verifier posts
    [markPropertyInactive] with the reason 'not_found', then calls
    [markVerifiedInactive], in that order and nothing else, and counts the
    id as verified inactive. *)
Theorem verifier_not_found_marks_inactive env id s pre r rest :
  map (http env) (listing_urls id) = pre ++ r :: rest ->
  Forall (fun a => inconclusive a = true) pre ->
  not_found r = true ->
  truthy_str (apiKey (cfg env)) = true ->
  sink_down env (SinkMarkInactive id "not_found") = false ->
  q_down env (QMarkVerifiedInactive id) = false ->
  let out := Verifier.processMissingProperty env id s in
  out.1 = Ok true /\
  trace (Verifier.world out.2)
  = trace (Verifier.world s) ++ [SinkMarkInactive id "not_found"; QMarkVerifiedInactive id] /\
  Verifier.verifiedInactiveCount out.2 = S (Verifier.verifiedInactiveCount s) /\
  Verifier.foundActiveCount out.2 = Verifier.foundActiveCount s.
Proof.
  intros Hans Hpre Hr Hkey Hsink Hq out.
  assert (Hv : Verifier.verifyProperty env id = false).
  { unfold Verifier.verifyProperty. rewrite Hans, (verify_urls_skip pre _ Hpre). simpl.
    rewrite (verify_url_not_found r Hr). reflexivity. }
  subst out. run_verifier. rewrite Hv, Hkey. simpl. rewrite Hsink. simpl. rewrite Hq. simpl.
  rewrite <- app_assoc. repeat split.
Qed.

(** The theorem at listing 7, whose first URL form times out and whose
    second answers 404. *)
Lemma verifier_not_found_marks_inactive_witness :
  map (http env_second_form_gone) (listing_urls "7")
  = [NetworkError] ++ Response 404 BodyNoNextData :: [] /\
  trace (Verifier.world
           (Verifier.processMissingProperty env_second_form_gone "7"
              (Verifier.init Queue.empty)).2)
  = [SinkMarkInactive "7" "not_found"; QMarkVerifiedInactive "7"].
Proof.
  split; [reflexivity|].
  exact (proj1 (proj2 (verifier_not_found_marks_inactive env_second_form_gone "7"
                         (Verifier.init Queue.empty) [NetworkError]
                         (Response 404 BodyNoNextData) []
                         eq_refl ltac:(repeat constructor) eq_refl eq_refl eq_refl
                         eq_refl))).
Defined.

(** X2. When the first URL form that settles the matter shows the ad, the
    verifier calls [updateLastSeen] and nothing else, the Core Service is
    not told anything, and the id is counted as found active. *)
Theorem verifier_found_restores env id s pre r rest :
  map (http env) (listing_urls id) = pre ++ r :: rest ->
  Forall (fun a => inconclusive a = true) pre ->
  shows_ad r = true ->
  q_down env (QUpdateLastSeen id) = false ->
  let out := Verifier.processMissingProperty env id s in
  out.1 = Ok true /\
  trace (Verifier.world out.2) = trace (Verifier.world s) ++ [QUpdateLastSeen id] /\
  Verifier.foundActiveCount out.2 = S (Verifier.foundActiveCount s) /\
  Verifier.verifiedInactiveCount out.2 = Verifier.verifiedInactiveCount s.
Proof.
  intros Hans Hpre Hr Hq out.
  assert (Hv : Verifier.verifyProperty env id = true).
  { unfold Verifier.verifyProperty. rewrite Hans, (verify_urls_skip pre _ Hpre). simpl.
    rewrite (verify_url_shows_ad r Hr). reflexivity. }
  subst out. run_verifier. rewrite Hv. simpl. rewrite Hq. simpl. repeat split.
Qed.

(** The theorem at listing 7, whose first URL form shows a page without
    ad and whose second shows the ad. *)
Lemma verifier_found_restores_witness :
  map (http env_second_form_listed) (listing_urls "7")
  = [Response 200 BodyNoAd] ++ Response 200 (BodyAd (TruthyId "7") ad7) :: [] /\
  trace (Verifier.world
           (Verifier.processMissingProperty env_second_form_listed "7"
              (Verifier.init Queue.empty)).2)
  = [QUpdateLastSeen "7"].
Proof.
  split; [reflexivity|].
  exact (proj1 (proj2 (verifier_found_restores env_second_form_listed "7"
                         (Verifier.init Queue.empty) [Response 200 BodyNoAd]
                         (Response 200 (BodyAd (TruthyId "7") ad7)) []
                         eq_refl ltac:(repeat constructor) eq_refl eq_refl))).
Defined.

(** X3. Whatever the portal, the queue and the Core Service do, one id
    costs the verifier one of four call sequences: [updateLastSeen] alone;
    [markVerifiedInactive] alone, there being no API key; the POST
    followed by [markVerifiedInactive], the POST having succeeded; or the
    POST alone, the POST having failed and the attempt reporting failure.
    An id is never marked verified inactive after a failed POST, and never
    both restored and deactivated. *)
Theorem verifier_call_footprint env id s :
  let out := Verifier.processMissingProperty env id s in
  let mark := SinkMarkInactive id "not_found" in
  exists calls,
    trace (Verifier.world out.2) = trace (Verifier.world s) ++ calls /\
    (calls = [QUpdateLastSeen id] \/
     (calls = [QMarkVerifiedInactive id] /\ truthy_str (apiKey (cfg env)) = false) \/
     (calls = [mark; QMarkVerifiedInactive id] /\ sink_down env mark = false) \/
     (calls = [mark] /\ sink_down env mark = true /\ out.1 = Ok false)).
Proof.
  intros out mark. subst out. run_verifier. fold mark.
  destruct (Verifier.verifyProperty env id); simpl.
  - eexists. split; [|left; reflexivity].
    destruct (q_down env (QUpdateLastSeen id)); reflexivity.
  - destruct (truthy_str (apiKey (cfg env))) eqn:Hkey; simpl.
    + destruct (sink_down env mark) eqn:Hsink; simpl.
      * eexists. split; [reflexivity|]. do 3 right. repeat split.
      * eexists. split; [|right; right; left; split; reflexivity].
        destruct (q_down env (QMarkVerifiedInactive id)); simpl;
          rewrite <- app_assoc; reflexivity.
    + eexists. split; [|right; left; split; reflexivity].
      destruct (q_down env (QMarkVerifiedInactive id)); reflexivity.
Qed.

Lemma ids_claimed_cons p polls :
  ids_claimed (p :: polls)
  = (match p with Pop id => if claimed id is Some _ then 1 else 0 | _ => 0 end + ids_claimed polls)%nat.
Proof. unfold ids_claimed. simpl. destruct p as [id| |]; simpl; [destruct (claimed id)|..]; reflexivity. Qed.

(** X4. The verifier's two counters together never exceed the number of
    ids its polls handed over: empty polls, failed pops and failed
    attempts count for nothing. *)
Lemma verifier_loop_counts env polls : forall c s,
  (Verifier.foundActiveCount (Verifier.loop env polls c s).1.1
   + Verifier.verifiedInactiveCount (Verifier.loop env polls c s).1.1
   <= Verifier.foundActiveCount s + Verifier.verifiedInactiveCount s + ids_claimed polls)%nat.
Proof.
  induction polls as [|p polls IH]; intros c s; [simpl; lia|].
  rewrite ids_claimed_cons. destruct p as [id| |]; simpl.
  - destruct (claimed id) as [i|] eqn:Ec; simpl.
    + pose proof (processMissingProperty_counts env i s) as Hc.
      destruct (Verifier.processMissingProperty env i s) as [r s1]. simpl in Hc.
      specialize (IH 0%nat s1). lia.
    + match goal with |- context [if ?b then _ else _] => destruct b end; simpl; [lia|].
      specialize (IH (S c) s). lia.
  - specialize (IH c s). lia.
  - lia.
Qed.

(** ** The worker's other paths *)

Ltac split_worker :=
  repeat (simpl;
          match goal with
          | |- context [if q_down ?e ?c then _ else _] => destruct (q_down e c) eqn:?
          | |- context [if sink_down ?e ?c then _ else _] => destruct (sink_down e c) eqn:?
          | |- context [Queue.isProcessed ?i ?q] => destruct (Queue.isProcessed i q) eqn:?
          | |- context [Worker.fetchPropertyDetail ?e ?i] =>
              destruct (Worker.fetchPropertyDetail e i) as [[?|]|?] eqn:?
          | |- context [Queue.hasPropertyChanged ?i ?p ?q] =>
              destruct (Queue.hasPropertyChanged i p q) eqn:?
          | |- context [transform_throws ?e ?p] => destruct (transform_throws e p) eqn:?
          | |- context [truthy_str ?k] => destruct (truthy_str k) eqn:?
          | |- context [Queue.requeueWithRetry ?i ?n ?q] =>
              destruct (Queue.requeueWithRetry i n q) as [[|] ?] eqn:?
          end); simpl.

(** X5. An id the queue reports as processed is skipped: the worker asks
    [isProcessed] and does nothing more, no request to the portal, no call
    to the Core Service, no counter touched, and reports success. *)
Theorem worker_skips_processed env id s :
  Queue.isProcessed id (queue (Worker.world s)) = true ->
  q_down env (QIsProcessed id) = false ->
  Worker.processListing env id s
  = (Ok true,
     {| Worker.world := {| queue := queue (Worker.world s);
                           trace := trace (Worker.world s) ++ [QIsProcessed id] |};
        Worker.processedCount := Worker.processedCount s;
        Worker.failedCount := Worker.failedCount s;
        Worker.changedCount := Worker.changedCount s;
        Worker.unchangedCount := Worker.unchangedCount s |}).
Proof. intros Hp Hq. run_worker. rewrite Hq. simpl. rewrite Hp. reflexivity. Qed.

(** The theorem at listing 7, already marked processed. *)
Lemma worker_skips_processed_witness :
  Queue.isProcessed "7" (Queue.markProcessed "7" Queue.empty) = true /\
  trace (Worker.world
           (Worker.processListing env_listed_key "7"
              (Worker.init (Queue.markProcessed "7" Queue.empty))).2)
  = [QIsProcessed "7"].
Proof.
  split; [reflexivity|].
  rewrite (worker_skips_processed env_listed_key "7"
             (Worker.init (Queue.markProcessed "7" Queue.empty)) eq_refl eq_refl).
  reflexivity.
Defined.

Lemma fetch_urls_nothing id rs :
  Forall (fun r => yields_nothing r = true) rs -> Worker.fetch_urls id rs = Ok None.
Proof.
  induction 1 as [|r rs Hr _ IH]; [reflexivity|].
  simpl. replace (Worker.fetch_url id r) with (@Ok (Turn Worker.Property) Continue); [exact IH|].
  unfold Worker.fetch_url, Worker.fetch_try, axios_get, Worker.fetch_catch.
  destruct r as [st body|]; [|reflexivity]. simpl in Hr.
  destruct (default_validateStatus st).
  - destruct body; try reflexivity; discriminate.
  - destruct (st =? 404); [reflexivity|]. apply negb_true_iff in Hr. rewrite Hr. reflexivity.
Qed.

(** X6. A listing none of whose URL forms yields an ad is recorded as
    failed with the reason 'Not found' and is not retried, also when the
    answers were timeouts, server errors or pages without ad data rather
    than a 404: the fetch swallows those errors and returns null. The
    failure counter is not touched. *)
Theorem worker_transient_errors_not_retried env id s :
  Forall (fun r => yields_nothing r = true) (map (http env) (listing_urls id)) ->
  Queue.isProcessed id (queue (Worker.world s)) = false ->
  q_down env (QIsProcessed id) = false ->
  q_down env (QMarkFailed id "Not found") = false ->
  let out := Worker.processListing env id s in
  out.1 = Ok false /\
  trace (Worker.world out.2)
  = trace (Worker.world s) ++ [QIsProcessed id; QMarkFailed id "Not found"] /\
  Worker.failedCount out.2 = Worker.failedCount s /\
  Worker.processedCount out.2 = Worker.processedCount s.
Proof.
  intros Hall Hnew Hq1 Hq2 out.
  pose proof (fetch_urls_nothing id _ Hall) as Hfetch.
  fold (Worker.fetchPropertyDetail env id) in Hfetch.
  subst out. run_worker.
  rewrite Hq1. simpl. rewrite Hnew. simpl. rewrite Hfetch. simpl. rewrite Hq2. simpl.
  rewrite <- app_assoc. repeat split.
Qed.

(** The theorem at listing 7 of a portal whose every request times out. *)
Lemma worker_transient_errors_not_retried_witness :
  Forall (fun r => yields_nothing r = true) (map (http env_unreachable) (listing_urls "7")) /\
  trace (Worker.world (Worker.processListing env_unreachable "7" (Worker.init Queue.empty)).2)
  = [QIsProcessed "7"; QMarkFailed "7" "Not found"].
Proof.
  assert (H : Forall (fun r => yields_nothing r = true)
                (map (http env_unreachable) (listing_urls "7")))
    by (repeat constructor).
  split; [exact H|].
  exact (proj1 (proj2 (worker_transient_errors_not_retried env_unreachable "7"
                         (Worker.init Queue.empty) H eq_refl eq_refl eq_refl))).
Defined.

Lemma fetch_urls_denied id pre r rest :
  Forall (fun a => yields_nothing a = true) pre ->
  denied r = true ->
  Worker.fetch_urls id (pre ++ r :: rest) = Throw BotDetection.
Proof.
  intros Hpre Hr. induction Hpre as [|a pre Ha _ IH]; simpl.
  - destruct r as [st body|]; [|discriminate]. simpl in Hr.
    unfold Worker.fetch_url, Worker.fetch_try, axios_get, default_validateStatus,
      Worker.fetch_catch.
    replace ((200 <=? st) && (st <? 300)) with false by lia.
    replace (st =? 404) with false by lia. rewrite Hr. reflexivity.
  - replace (Worker.fetch_url id a) with (@Ok (Turn Worker.Property) Continue); [exact IH|].
    unfold Worker.fetch_url, Worker.fetch_try, axios_get, Worker.fetch_catch.
    destruct a as [st body|]; [|reflexivity]. simpl in Ha.
    destruct (default_validateStatus st).
    + destruct body; try reflexivity; discriminate.
    + destruct (st =? 404); [reflexivity|]. apply negb_true_iff in Ha. rewrite Ha. reflexivity.
Qed.

(** X7. A 403 on a URL form reached before any ad was found is taken for
    bot detection: the fetch throws, and the worker's only queue call after
    [isProcessed] is [requeueWithRetry(id, 3)]; the id is not counted as
    processed and the remaining URL forms are not tried. *)
Theorem worker_denied_before_ad_requeues env id s pre r rest :
  map (http env) (listing_urls id) = pre ++ r :: rest ->
  Forall (fun a => yields_nothing a = true) pre ->
  denied r = true ->
  Queue.isProcessed id (queue (Worker.world s)) = false ->
  (forall c, q_down env c = false) ->
  let out := Worker.processListing env id s in
  out.1 = Ok false /\
  trace (Worker.world out.2)
  = trace (Worker.world s) ++ [QIsProcessed id; QRequeueWithRetry id 3] /\
  Worker.processedCount out.2 = Worker.processedCount s.
Proof.
  intros Hans Hpre Hr Hnew Hq out.
  assert (Hfetch : Worker.fetchPropertyDetail env id = Throw BotDetection).
  { unfold Worker.fetchPropertyDetail. rewrite Hans. apply fetch_urls_denied; assumption. }
  subst out. run_worker.
  rewrite !Hq. simpl. rewrite Hnew. simpl. rewrite Hfetch. simpl. rewrite ?Hq. simpl.
  destruct (Queue.requeueWithRetry id 3 (queue (Worker.world s))) as [[|] q1]; simpl;
    rewrite <- app_assoc; repeat split.
Qed.

(** The theorem at listing 7, whose first URL form times out and whose
    second answers 403. *)
Lemma worker_denied_before_ad_requeues_witness :
  map (http env_second_form_denied) (listing_urls "7")
  = [NetworkError] ++ Response 403 BodyNoNextData :: [] /\
  trace (Worker.world
           (Worker.processListing env_second_form_denied "7" (Worker.init Queue.empty)).2)
  = [QIsProcessed "7"; QRequeueWithRetry "7" 3].
Proof.
  split; [reflexivity|].
  exact (proj1 (proj2 (worker_denied_before_ad_requeues env_second_form_denied "7"
                         (Worker.init Queue.empty) [NetworkError]
                         (Response 403 BodyNoNextData) []
                         eq_refl ltac:(repeat constructor) eq_refl eq_refl
                         (fun _ => eq_refl)))).
Defined.

(** The counters over one attempt of the worker. *)
Lemma processListing_counters env id s :
  let out := Worker.processListing env id s in
  (Worker.processedCount s <= Worker.processedCount out.2)%nat /\
  (Worker.processedCount out.2 + (Worker.changedCount s + Worker.unchangedCount s)
   <= Worker.processedCount s + (Worker.changedCount out.2 + Worker.unchangedCount out.2))%nat /\
  (Worker.changedCount out.2 + Worker.unchangedCount out.2
   <= S (Worker.changedCount s + Worker.unchangedCount s))%nat /\
  (Worker.failedCount s <= Worker.failedCount out.2 <= S (Worker.failedCount s))%nat /\
  ((forall c, q_down env c = false) ->
   (Worker.processedCount out.2 + (Worker.changedCount s + Worker.unchangedCount s)
    = Worker.processedCount s + (Worker.changedCount out.2 + Worker.unchangedCount out.2))%nat).
Proof.
  run_worker. split_worker; repeat split; try lia.
  all: intros Hup;
    repeat match goal with
           | H : q_down _ _ = true |- _ => rewrite Hup in H; discriminate
           end; lia.
Qed.

Lemma worker_loop_counts env polls : forall c s,
  (Worker.processedCount s <= Worker.changedCount s + Worker.unchangedCount s)%nat ->
  (Worker.processedCount (Worker.loop env polls c s).1.1
   <= Worker.changedCount (Worker.loop env polls c s).1.1
      + Worker.unchangedCount (Worker.loop env polls c s).1.1)%nat /\
  ((forall k, q_down env k = false) ->
   (Worker.processedCount s = Worker.changedCount s + Worker.unchangedCount s)%nat ->
   (Worker.processedCount (Worker.loop env polls c s).1.1
    = Worker.changedCount (Worker.loop env polls c s).1.1
      + Worker.unchangedCount (Worker.loop env polls c s).1.1)%nat).
Proof.
  induction polls as [|p polls IH]; intros c s Hinv; [simpl; split; [lia|auto]|].
  destruct p as [id| |]; simpl.
  - destruct (claimed id) as [i|]; simpl.
    + pose proof (processListing_counters env i s) as Hc.
      destruct (Worker.processListing env i s) as [r s1]. simpl in Hc.
      destruct Hc as (H1 & H2 & H3 & H4 & H5).
      destruct (IH 0%nat s1 ltac:(lia)) as [Hle Heq].
      split; [exact Hle|]. intros Hup Hs. apply Heq; [exact Hup|]. specialize (H5 Hup). lia.
    + match goal with |- context [if ?b then _ else _] => destruct b end; simpl.
      * split; [lia|auto].
      * apply IH. exact Hinv.
  - apply IH. exact Hinv.
  - split; [lia|auto].
Qed.

(** X8. The worker's statistics stay consistent over a whole run of
    [start]: the processed count never exceeds the changed and unchanged
    counts together, and equals their sum as long as no queue call fails.
    (A listing is counted as changed or unchanged before it is marked
    processed, so a failure in between leaves it counted but not
    processed.) *)
Theorem worker_counts_stay_consistent env polls s :
  (Worker.processedCount s <= Worker.changedCount s + Worker.unchangedCount s)%nat ->
  let s' := (Worker.start env polls s).1.1 in
  (Worker.processedCount s' <= Worker.changedCount s' + Worker.unchangedCount s')%nat /\
  ((forall k, q_down env k = false) ->
   (Worker.processedCount s = Worker.changedCount s + Worker.unchangedCount s)%nat ->
   (Worker.processedCount s' = Worker.changedCount s' + Worker.unchangedCount s')%nat).
Proof. intros Hinv. apply worker_loop_counts. exact Hinv. Qed.

(** The theorem at a run that is handed listing 7 once. *)
Lemma worker_counts_stay_consistent_witness :
  let s' := (Worker.start env_listed [Pop (Some "7")] (Worker.init Queue.empty)).1.1 in
  (Worker.processedCount s' = Worker.changedCount s' + Worker.unchangedCount s')%nat.
Proof.
  exact (proj2 (worker_counts_stay_consistent env_listed [Pop (Some "7")]
                  (Worker.init Queue.empty) ltac:(simpl; lia))
               (fun _ => eq_refl) eq_refl).
Defined.

Lemma sink_calls_app a b : sink_calls (a ++ b) = sink_calls a ++ sink_calls b.
Proof. apply List.filter_app. Qed.

(** X9. Without an API key nothing is ever posted to the Core Service:
    neither an attempt of the worker nor one of the verifier adds an
    ingest or a mark-inactive request, whatever the portal answers. *)
Theorem no_post_without_api_key env id ws vs :
  truthy_str (apiKey (cfg env)) = false ->
  sink_calls (trace (Worker.world (Worker.processListing env id ws).2))
  = sink_calls (trace (Worker.world ws)) /\
  sink_calls (trace (Verifier.world (Verifier.processMissingProperty env id vs).2))
  = sink_calls (trace (Verifier.world vs)).
Proof.
  intros Hkey. split.
  - run_worker. rewrite ?Hkey. split_worker; rewrite ?sink_calls_app; simpl;
      rewrite ?app_nil_r; try reflexivity; congruence.
  - run_verifier. rewrite ?Hkey. simpl.
    repeat match goal with
           | |- context [if ?b then _ else _] => destruct b eqn:?; simpl
           end; rewrite ?sink_calls_app; simpl; rewrite ?app_nil_r; reflexivity.
Qed.

(** The theorem at listing 7 of a portal that shows its ad. *)
Lemma no_post_without_api_key_witness :
  truthy_str (apiKey (cfg env_listed)) = false /\
  sink_calls (trace (Worker.world
                       (Worker.processListing env_listed "7" (Worker.init Queue.empty)).2))
  = [].
Proof.
  split; [reflexivity|].
  exact (proj1 (no_post_without_api_key env_listed "7" (Worker.init Queue.empty)
                  (Verifier.init Queue.empty) eq_refl)).
Defined.

(** ** Discovery by the coordinator *)

(** X10. A first page that advertises no listings ends the discovery of
    the city at once: one request, nothing queued (not even ids that page
    may carry), no queue call at all, and 0 returned. *)
Theorem discoverCity_zero_total_queues_nothing env src ids0 w :
  src 0 = Coordinator.Page ids0 0 ->
  Coordinator.discoverCity env src w
  = (Ok 0%nat, {| queue := queue w;
                  trace := trace w ++ [ApiListings 0 Coordinator.limit] |}).
Proof.
  intros H0. unfold Coordinator.discoverCity, try_catch, bind, Coordinator.fetchListingIds,
    bind, log, modify, ret. simpl. rewrite H0. reflexivity.
Qed.

(** The theorem at a search that finds nothing. *)
Lemma discoverCity_zero_total_queues_nothing_witness :
  source_empty 0 = Coordinator.Page [] 0 /\
  Coordinator.discoverCity env_unreachable source_empty Coordinator.fresh
  = (Ok 0%nat, {| queue := Queue.empty; trace := [ApiListings 0 Coordinator.limit] |}).
Proof.
  split; [reflexivity|].
  exact (discoverCity_zero_total_queues_nothing env_unreachable source_empty []
           Coordinator.fresh eq_refl).
Defined.

(** X11. A failure on the second page makes [discoverCity] report 0 ids
    added although the ids of the first page have been queued and stay
    queued: the [catch] block returns 0, not the count so far. *)
Theorem discoverCity_failure_reports_zero env src ids0 total e w :
  src 0 = Coordinator.Page ids0 total ->
  Coordinator.limit < total ->
  src Coordinator.limit = Coordinator.PageThrows e ->
  q_down env (QPushListingIds ids0) = false ->
  Coordinator.discoverCity env src w
  = (Ok 0%nat,
     {| queue := (Queue.pushListingIds ids0 (queue w)).2;
        trace := trace w ++ [ApiListings 0 Coordinator.limit; QPushListingIds ids0;
                             ApiListings Coordinator.limit Coordinator.limit] |}).
Proof.
  intros H0 Hlt H50 Hq.
  unfold Coordinator.discoverCity, try_catch, bind, Coordinator.fetchListingIds at 1,
    Coordinator.pushListingIds at 1, qcall, bind, log, modify, ret. simpl.
  rewrite H0. simpl.
  replace (total =? 0) with false by (unfold Coordinator.limit in Hlt; lia). simpl.
  rewrite Hq. simpl.
  destruct (Queue.pushListingIds ids0 (queue w)) as [n0 q1]. simpl.
  rewrite Coordinator.fetch_remaining_equation_1.
  destruct (decide (0 + Coordinator.limit < total)) as [Hy|Hn]; [|simpl in Hn; lia].
  simpl. unfold Coordinator.fetchListingIds, bind, log, modify, throw. simpl.
  change (0 + Coordinator.limit) with Coordinator.limit. rewrite H50. simpl.
  rewrite <- !app_assoc. reflexivity.
Qed.

(** The theorem at a portal that serves its first page and then answers
    500. *)
Lemma discoverCity_failure_reports_zero_witness :
  source_failing_later 0 = Coordinator.Page ["1"; "2"] 120 /\
  (Coordinator.discoverCity env_unreachable source_failing_later Coordinator.fresh).1
  = Ok 0%nat /\
  Queue.pending
    (queue (Coordinator.discoverCity env_unreachable source_failing_later
              Coordinator.fresh).2)
  = ["1"; "2"].
Proof.
  split; [reflexivity|].
  rewrite (discoverCity_failure_reports_zero env_unreachable source_failing_later
             ["1"; "2"] 120 (AxiosError (Some 500)) Coordinator.fresh
             eq_refl ltac:(unfold Coordinator.limit; lia) eq_refl eq_refl).
  split; reflexivity.
Defined.



(** ** The coordinator's requests to the listings API *)

(** X28. A 401 is retried without bound and without delay: while the API
    keeps answering 401 and the token refresh does not fail,
    [fetchListingIds] neither returns nor throws, and every call it is
    allowed goes into one more request. *)
Theorem unauthorized_retried_without_bound w budget : forall k r,
  (forall i, unauthorized (CoordinatorApi.replies w i) = true) ->
  (forall i, CoordinatorApi.refresh w i = None) ->
  CoordinatorApi.fetchListingIds w budget k r
  = {| CoordinatorApi.outcome := CoordinatorApi.Running;
       CoordinatorApi.requests := (k + budget)%nat;
       CoordinatorApi.refreshes := (r + 2 * budget)%nat |}.
Proof.
  induction budget as [|budget IH]; intros k r H401 Href; simpl.
  { f_equal; lia. }
  rewrite !Href. pose proof (H401 k) as Hk. unfold unauthorized in Hk.
  destruct (CoordinatorApi.replies w k) as [data|[[st|]| | | | |]]; try discriminate.
  rewrite Hk, IH by assumption. f_equal; lia.
Qed.

(** The theorem at an API that answers 401 to everything: a thousand
    calls allowed, a thousand requests made, and no end. *)
Lemma unauthorized_retried_without_bound_witness :
  CoordinatorApi.outcome (CoordinatorApi.fetchListingIds api_unauthorized 1000 0 0)
  = CoordinatorApi.Running /\
  CoordinatorApi.requests (CoordinatorApi.fetchListingIds api_unauthorized 1000 0 0)
  = 1000%nat.
Proof.
  rewrite (unauthorized_retried_without_bound api_unauthorized 1000 0 0
             (fun _ => eq_refl) (fun _ => eq_refl)).
  split; reflexivity.
Defined.

(** X29. The first answer that is no 401 decides: after [n] answers of
    401, with the token refresh never failing, [fetchListingIds] makes
    [n + 1] requests and ends as that answer has it, be the calls allowed
    ever so many. *)
Theorem first_other_answer_decides w n : forall budget k r,
  (forall i, (i < n)%nat -> unauthorized (CoordinatorApi.replies w (k + i)) = true) ->
  unauthorized (CoordinatorApi.replies w (k + n)) = false ->
  (forall i, CoordinatorApi.refresh w i = None) ->
  (n < budget)%nat ->
  CoordinatorApi.fetchListingIds w budget k r
  = {| CoordinatorApi.outcome := settles (CoordinatorApi.replies w (k + n));
       CoordinatorApi.requests := (k + S n)%nat;
       CoordinatorApi.refreshes := (r + S (2 * n))%nat |}.
Proof.
  induction n as [|n IH]; intros budget k r H401 Hother Href Hlt;
    (destruct budget as [|budget]; [lia|]); simpl; rewrite Href.
  - rewrite Nat.add_0_r in *. unfold unauthorized in Hother. unfold settles.
    destruct (CoordinatorApi.replies w k) as [data|e].
    + destruct (CoordinatorApi.parse data) as [[ids total]|e]; f_equal; lia.
    + destruct e as [[st|]| | | | |]; try (f_equal; lia).
      rewrite Hother. f_equal; lia.
  - pose proof (H401 0%nat ltac:(lia)) as Hk. rewrite Nat.add_0_r in Hk.
    unfold unauthorized in Hk.
    destruct (CoordinatorApi.replies w k) as [data|[[st|]| | | | |]]; try discriminate.
    rewrite Hk, Href.
    rewrite (IH budget (S k) (S (S r))).
    + replace (S k + n)%nat with (k + S n)%nat by lia. f_equal; lia.
    + intros i Hi. replace (S k + i)%nat with (k + S i)%nat by lia. apply H401. lia.
    + replace (S k + n)%nat with (k + S n)%nat by lia. exact Hother.
    + exact Href.
    + lia.
Qed.

(** The theorem at an API that answers 401 twice and then serves a page. *)
Lemma first_other_answer_decides_witness :
  CoordinatorApi.fetchListingIds api_recovering 10 0 0
  = {| CoordinatorApi.outcome := CoordinatorApi.Returns ["11"; "12"] (Js.JNum 2);
       CoordinatorApi.requests := 3; CoordinatorApi.refreshes := 5 |}.
Proof.
  rewrite (first_other_answer_decides api_recovering 2 10 0 0).
  - reflexivity.
  - intros i Hi. destruct i as [|[|i]]; [reflexivity|reflexivity|lia].
  - reflexivity.
  - intros i. reflexivity.
  - lia.
Defined.

(** ** Phase 2 of the city scraper *)

Lemma attempt_counts c id a s :
  let r := CityDetail.attempt c id a s in
  CityDetail.requests r.2 = CityDetail.requests s ++ [id] /\
  CityDetail.failed r.2 = CityDetail.failed s /\
  (CityDetail.scraped s <= CityDetail.scraped r.2)%nat /\
  (CityDetail.scraped r.2 + length (CityDetail.properties s)
   = CityDetail.scraped s + length (CityDetail.properties r.2))%nat /\
  CityDetail.processedIds s ⊆ CityDetail.processedIds r.2.
Proof.
  unfold CityDetail.attempt.
  destruct (CityDetail.fetchPropertyDetail (CityDetail.reply a)) as [p|]; simpl.
  2:{ repeat split; lia || set_solver. }
  assert (CityDetail.processedIds s
          ⊆ CityDetail.add_processed (CityDetail.property_id p) (CityDetail.processedIds s))
    by (unfold CityDetail.add_processed; destruct (CityDetail.property_id p); set_solver).
  destruct (CityDetail.transform_fails a); simpl; [repeat split; lia || assumption|].
  destruct (truthy_str (apiKey c)); simpl.
  - destruct (CityDetail.send_fails a); simpl; rewrite ?length_app; simpl;
      repeat split; lia || assumption.
  - rewrite ?length_app; simpl; repeat split; lia || assumption.
Qed.

Lemma while_loop_counts c id outcomes budget : forall retries s,
  let s' := CityDetail.while_loop c id outcomes budget retries s in
  (length (CityDetail.requests s') <= length (CityDetail.requests s) + budget)%nat /\
  (CityDetail.failed s <= CityDetail.failed s' <= S (CityDetail.failed s))%nat /\
  (CityDetail.scraped s <= CityDetail.scraped s')%nat /\
  (CityDetail.scraped s' + length (CityDetail.properties s)
   = CityDetail.scraped s + length (CityDetail.properties s'))%nat /\
  CityDetail.processedIds s ⊆ CityDetail.processedIds s'.
Proof.
  induction budget as [|budget IH]; intros retries s; cbn [CityDetail.while_loop].
  { simpl. repeat split; lia || set_solver. }
  destruct (retries <=? CityScraper.maxRetries)%nat; [|simpl; repeat split; lia || set_solver].
  pose proof (attempt_counts c id (outcomes retries) s) as Ha.
  destruct (CityDetail.attempt c id (outcomes retries) s) as [threw s1].
  simpl in Ha. destruct Ha as (Hr & Hf & Hs & Hp & Hi).
  destruct threw.
  2:{ simpl. rewrite Hr, length_app. simpl. repeat split; lia || assumption. }
  destruct (CityScraper.maxRetries <? S retries)%nat.
  { simpl. rewrite Hr, length_app. simpl. repeat split; lia || assumption. }
  specialize (IH (S retries) (CityDetail.sleep (CityScraper.backoff_sleep c (S retries)) s1)).
  simpl in IH. destruct IH as (Hr' & Hf' & Hs' & Hp' & Hi').
  rewrite Hr, length_app in Hr'. simpl in Hr'.
  simpl. repeat split; try lia. etrans; [exact Hi|exact Hi'].
Qed.

Lemma while_loop_budget_enough c id outcomes budget : forall retries s extra,
  (S CityScraper.maxRetries <= budget + retries)%nat ->
  CityDetail.while_loop c id outcomes (budget + extra) retries s
  = CityDetail.while_loop c id outcomes budget retries s.
Proof.
  unfold CityScraper.maxRetries.
  induction budget as [|budget IH]; intros retries s extra Hle.
  { simpl. destruct extra as [|extra]; [reflexivity|]. cbn [CityDetail.while_loop].
    unfold CityScraper.maxRetries.
    replace (retries <=? 3)%nat with false by (symmetry; apply Nat.leb_gt; lia).
    reflexivity. }
  cbn [CityDetail.while_loop Nat.add]. unfold CityScraper.maxRetries.
  destruct (retries <=? 3)%nat; [|reflexivity].
  destruct (CityDetail.attempt c id (outcomes retries) s) as [[|] s1]; [|reflexivity].
  destruct (3 <? S retries)%nat; [reflexivity|].
  apply IH. lia.
Qed.

Lemma scrape_id_counts c id outcomes s :
  let s' := CityDetail.scrape_id c id outcomes s in
  (length (CityDetail.requests s')
   <= length (CityDetail.requests s) + S CityScraper.maxRetries)%nat /\
  (CityDetail.failed s <= CityDetail.failed s' <= S (CityDetail.failed s))%nat /\
  (CityDetail.scraped s <= CityDetail.scraped s')%nat /\
  (CityDetail.scraped s' + length (CityDetail.properties s)
   = CityDetail.scraped s + length (CityDetail.properties s'))%nat /\
  CityDetail.processedIds s ⊆ CityDetail.processedIds s'.
Proof.
  unfold CityDetail.scrape_id.
  destruct (bool_decide (id ∈ CityDetail.processedIds s)).
  - simpl. repeat split; lia || set_solver.
  - apply while_loop_counts.
Qed.

(** X13. [result.scraped] is the number of standard records pushed to
    [result.properties]: phase 2 keeps the two in step. *)
Theorem phase2_scraped_counts_pushes c allIds : forall s,
  CityDetail.scraped s = length (CityDetail.properties s) ->
  CityDetail.scraped (CityDetail.phase2 c allIds s)
  = length (CityDetail.properties (CityDetail.phase2 c allIds s)).
Proof.
  induction allIds as [|[id outcomes] rest IH]; intros s Hs; simpl; [exact Hs|].
  apply IH. pose proof (scrape_id_counts c id outcomes s) as H. simpl in H. lia.
Qed.

(** The theorem at two listings, one accepted, one refused by the Core
    Service. *)
Lemma phase2_scraped_counts_pushes_witness :
  CityDetail.scraped CityDetail.fresh = length (CityDetail.properties CityDetail.fresh) /\
  CityDetail.scraped
    (CityDetail.phase2 default_config
       [("7", fun _ => sink_accepts 7); ("8", fun _ => sink_refuses 8)] CityDetail.fresh)
  = length (CityDetail.properties
      (CityDetail.phase2 default_config
         [("7", fun _ => sink_accepts 7); ("8", fun _ => sink_refuses 8)] CityDetail.fresh)).
Proof.
  split; [reflexivity|].
  exact (phase2_scraped_counts_pushes default_config
           [("7", fun _ => sink_accepts 7); ("8", fun _ => sink_refuses 8)]
           CityDetail.fresh eq_refl).
Defined.

(** X14. Phase 2 asks for the details of an id at most four times and
    counts it as failed at most once; [processedIds] only grows. *)
Theorem phase2_effort_bounded c allIds : forall s,
  let s' := CityDetail.phase2 c allIds s in
  (length (CityDetail.requests s')
   <= length (CityDetail.requests s) + 4 * length allIds)%nat /\
  (CityDetail.failed s <= CityDetail.failed s' <= CityDetail.failed s + length allIds)%nat /\
  CityDetail.processedIds s ⊆ CityDetail.processedIds s'.
Proof.
  induction allIds as [|[id outcomes] rest IH]; intros s; simpl.
  { repeat split; lia || set_solver. }
  pose proof (scrape_id_counts c id outcomes s) as H. simpl in H.
  unfold CityScraper.maxRetries in H.
  specialize (IH (CityDetail.scrape_id c id outcomes s)). simpl in IH.
  destruct H as (? & ? & ? & ? & Hsub), IH as (? & ? & Hsub').
  repeat split; try lia. etrans; [exact Hsub|exact Hsub'].
Qed.

(** X15. While the Core Service refuses a listing, every retry pushes its
    record again and counts it again, for the count and the push come
    before the POST: accepted after [k] refusals, the listing has raised
    [scraped] by [k + 1] and sits [k + 1] times in [properties]; refused
    four times, it is counted as failed and yet four times as scraped. *)
Theorem refused_listing_counted_again c id outcomes k s :
  truthy_str (apiKey c) = true ->
  id ∉ CityDetail.processedIds s ->
  (k <= S CityScraper.maxRetries)%nat ->
  (forall r, (r < k)%nat -> refused_by_sink (outcomes r) = true) ->
  ((k <= CityScraper.maxRetries)%nat -> goes_through (outcomes k) = true) ->
  let s' := CityDetail.scrape_id c id outcomes s in
  let tries := if (k <=? CityScraper.maxRetries)%nat then S k else k in
  CityDetail.scraped s' = (CityDetail.scraped s + tries)%nat /\
  length (CityDetail.properties s') = (length (CityDetail.properties s) + tries)%nat /\
  length (CityDetail.ingested s') = (length (CityDetail.ingested s) + tries)%nat /\
  CityDetail.failed s'
  = (CityDetail.failed s + if (k <=? CityScraper.maxRetries)%nat then 0 else 1)%nat.
Proof.
  intros Hkey Hnew Hk Href Hok. unfold CityDetail.scrape_id.
  rewrite bool_decide_eq_false_2 by exact Hnew.
  unfold CityScraper.maxRetries in *.
  assert (Hstep : forall a s0, refused_by_sink a = true ->
            exists s1, CityDetail.attempt c id a s0 = (true, s1) /\
              CityDetail.scraped s1 = S (CityDetail.scraped s0) /\
              length (CityDetail.properties s1) = S (length (CityDetail.properties s0)) /\
              length (CityDetail.ingested s1) = S (length (CityDetail.ingested s0)) /\
              CityDetail.failed s1 = CityDetail.failed s0).
  { intros a s0 Ha. unfold refused_by_sink in Ha. unfold CityDetail.attempt.
    destruct (CityDetail.fetchPropertyDetail (CityDetail.reply a)); [|discriminate].
    destruct (CityDetail.transform_fails a); [discriminate|]. simpl in Ha.
    rewrite Hkey, Ha. eexists. split; [reflexivity|]. simpl.
    rewrite !length_app. simpl. lia. }
  assert (Hlast : forall a s0, goes_through a = true ->
            exists s1, CityDetail.attempt c id a s0 = (false, s1) /\
              CityDetail.scraped s1 = S (CityDetail.scraped s0) /\
              length (CityDetail.properties s1) = S (length (CityDetail.properties s0)) /\
              length (CityDetail.ingested s1) = S (length (CityDetail.ingested s0)) /\
              CityDetail.failed s1 = CityDetail.failed s0).
  { intros a s0 Ha. unfold goes_through in Ha. unfold CityDetail.attempt.
    destruct (CityDetail.fetchPropertyDetail (CityDetail.reply a)); [|discriminate].
    destruct (CityDetail.transform_fails a); [discriminate|]. simpl in Ha.
    rewrite Hkey. destruct (CityDetail.send_fails a); [discriminate|].
    eexists. split; [reflexivity|]. simpl. rewrite !length_app. simpl. lia. }
  assert (Hgen : forall budget retries s0,
            (retries <= k)%nat -> (retries <= 3)%nat -> (budget + retries = 4)%nat ->
            let s' := CityDetail.while_loop c id outcomes budget retries s0 in
            let tries := ((if (k <=? 3)%nat then S k else k) - retries)%nat in
            CityDetail.scraped s' = (CityDetail.scraped s0 + tries)%nat /\
            length (CityDetail.properties s')
            = (length (CityDetail.properties s0) + tries)%nat /\
            length (CityDetail.ingested s')
            = (length (CityDetail.ingested s0) + tries)%nat /\
            CityDetail.failed s'
            = (CityDetail.failed s0 + if (k <=? 3)%nat then 0 else 1)%nat).
  { induction budget as [|budget IH]; intros retries s0 Hle Hle3 Hsum; [lia|].
    cbn [CityDetail.while_loop]. unfold CityScraper.maxRetries.
    replace (retries <=? 3)%nat with true by (symmetry; apply Nat.leb_le; lia).
    destruct (decide (retries = k)) as [->|Hne].
    - destruct (Hlast (outcomes k) s0) as (s1 & -> & H1 & H2 & H3 & H4); [apply Hok; lia|].
      simpl. replace (k <=? 3)%nat with true by (symmetry; apply Nat.leb_le; lia).
      lia.
    - destruct (Hstep (outcomes retries) s0) as (s1 & -> & H1 & H2 & H3 & H4);
        [apply Href; lia|].
      destruct (3 <? S retries)%nat eqn:E.
      + apply Nat.ltb_lt in E. assert (retries = 3%nat) by lia. subst retries.
        assert (k = 4%nat) by lia. subst k. simpl. lia.
      + apply Nat.ltb_ge in E.
        specialize (IH (S retries)
                      (CityDetail.sleep (CityScraper.backoff_sleep c (S retries)) s1)
                      ltac:(lia) ltac:(lia) ltac:(lia)).
        simpl in IH. simpl. destruct (k <=? 3)%nat; lia. }
  specialize (Hgen 4%nat 0%nat s ltac:(lia) ltac:(lia) eq_refl). simpl in Hgen.
  simpl. destruct (k <=? 3)%nat; rewrite ?Nat.sub_0_r in Hgen; exact Hgen.
Qed.

(** The theorem at a listing the Core Service refuses twice, then takes. *)
Lemma refused_listing_counted_again_witness :
  CityDetail.scraped
    (CityDetail.scrape_id config_with_key "7"
       (fun r => if (r <? 2)%nat then sink_refuses 7 else sink_accepts 7) CityDetail.fresh)
  = 3%nat /\
  CityDetail.failed
    (CityDetail.scrape_id config_with_key "7"
       (fun r => if (r <? 2)%nat then sink_refuses 7 else sink_accepts 7) CityDetail.fresh)
  = 0%nat.
Proof.
  pose proof (refused_listing_counted_again config_with_key "7"
                (fun r => if (r <? 2)%nat then sink_refuses 7 else sink_accepts 7)
                2 CityDetail.fresh eq_refl ltac:(set_solver)
                ltac:(unfold CityScraper.maxRetries; lia)) as H.
  simpl in H.
  destruct H as (H1 & _ & _ & H4).
  - intros r Hr. destruct r as [|[|r]]; [reflexivity|reflexivity|lia].
  - intros _. reflexivity.
  - split; [exact H1|exact H4].
Defined.

Lemma while_loop_requests c id outcomes budget : forall retries s,
  exists n,
    CityDetail.requests (CityDetail.while_loop c id outcomes budget retries s)
    = CityDetail.requests s ++ repeat id n /\
    ((0 < budget)%nat -> (retries <= CityScraper.maxRetries)%nat -> (0 < n)%nat).
Proof.
  induction budget as [|budget IH]; intros retries s; cbn [CityDetail.while_loop].
  { exists 0%nat. simpl. rewrite app_nil_r. split; [reflexivity|lia]. }
  destruct (retries <=? CityScraper.maxRetries)%nat eqn:E.
  2:{ exists 0%nat. simpl. rewrite app_nil_r. split; [reflexivity|].
      apply Nat.leb_gt in E. lia. }
  pose proof (attempt_counts c id (outcomes retries) s) as Ha.
  destruct (CityDetail.attempt c id (outcomes retries) s) as [threw s1].
  simpl in Ha. destruct Ha as (Hr & _).
  destruct threw.
  2:{ exists 1%nat. simpl. split; [exact Hr|lia]. }
  destruct (CityScraper.maxRetries <? S retries)%nat.
  { exists 1%nat. simpl. split; [exact Hr|lia]. }
  destruct (IH (S retries) (CityDetail.sleep (CityScraper.backoff_sleep c (S retries)) s1))
    as (n & Hn & _).
  exists (S n). rewrite Hn. simpl. rewrite Hr, <- app_assoc. simpl.
  split; [reflexivity|lia].
Qed.

Lemma attempt_ids_unchanged c id a s :
  id_not_text a = true ->
  CityDetail.processedIds (CityDetail.attempt c id a s).2 = CityDetail.processedIds s.
Proof.
  unfold id_not_text, CityDetail.attempt. intros H.
  destruct (CityDetail.fetchPropertyDetail (CityDetail.reply a)) as [p|]; [|reflexivity].
  assert (CityDetail.add_processed (CityDetail.property_id p) (CityDetail.processedIds s)
          = CityDetail.processedIds s) as Hadd
    by (destruct (CityDetail.property_id p); try discriminate; reflexivity).
  destruct (CityDetail.transform_fails a); simpl; [exact Hadd|].
  destruct (truthy_str (apiKey c)); [destruct (CityDetail.send_fails a)|]; simpl; exact Hadd.
Qed.

Lemma while_loop_ids_unchanged c id outcomes budget : forall retries s,
  (forall r, id_not_text (outcomes r) = true) ->
  CityDetail.processedIds (CityDetail.while_loop c id outcomes budget retries s)
  = CityDetail.processedIds s.
Proof.
  induction budget as [|budget IH]; intros retries s Hall; cbn [CityDetail.while_loop];
    [reflexivity|].
  destruct (retries <=? CityScraper.maxRetries)%nat; [|reflexivity].
  pose proof (attempt_ids_unchanged c id (outcomes retries) s (Hall retries)) as Ha.
  destruct (CityDetail.attempt c id (outcomes retries) s) as [threw s1]. simpl in Ha.
  destruct threw; [|exact Ha].
  destruct (CityScraper.maxRetries <? S retries)%nat; [exact Ha|].
  rewrite IH by exact Hall. exact Ha.
Qed.

(** X16. The value [scrapeCity] puts into [processedIds] is
    [property.id], which the spread [...ad] has replaced by the ad's own
    [id]. When that is a number, as on the portal's detail pages, it equals
    none of the strings of [allIds]: the set of strings remembered never
    changes, no id is skipped, and an id listed twice is fetched twice. *)
Theorem numeric_ids_not_remembered c allIds : forall s,
  Forall (fun w => forall r, id_not_text (w.2 r) = true) allIds ->
  CityDetail.processedIds (CityDetail.phase2 c allIds s) = CityDetail.processedIds s /\
  (Forall (fun w => w.1 ∉ CityDetail.processedIds s) allIds ->
   (length (CityDetail.requests s) + length allIds
    <= length (CityDetail.requests (CityDetail.phase2 c allIds s)))%nat).
Proof.
  induction allIds as [|[id outcomes] rest IH]; intros s Hall; simpl.
  { split; [reflexivity|intros _; lia]. }
  apply Forall_cons in Hall as [Hhd Htl]. simpl in Hhd.
  assert (Hsame : CityDetail.processedIds (CityDetail.scrape_id c id outcomes s)
                  = CityDetail.processedIds s).
  { unfold CityDetail.scrape_id. destruct (bool_decide _); [reflexivity|].
    apply while_loop_ids_unchanged, Hhd. }
  destruct (IH (CityDetail.scrape_id c id outcomes s) Htl) as [Hids Hreq].
  split; [rewrite Hids; exact Hsame|].
  intros Hnew. apply Forall_cons in Hnew as [Hid Hrest]. simpl in Hid.
  rewrite Hsame in Hreq. specialize (Hreq Hrest).
  assert ((S (length (CityDetail.requests s))
           <= length (CityDetail.requests (CityDetail.scrape_id c id outcomes s)))%nat).
  { unfold CityDetail.scrape_id. rewrite bool_decide_eq_false_2 by exact Hid.
    destruct (while_loop_requests c id outcomes (S CityScraper.maxRetries) 0 s)
      as (n & -> & Hn).
    rewrite length_app, repeat_length.
    specialize (Hn ltac:(lia) ltac:(unfold CityScraper.maxRetries; lia)). lia. }
  lia.
Qed.

(** The theorem at one numbered listing that the search pages list twice. *)
Lemma numeric_ids_not_remembered_witness :
  CityDetail.processedIds
    (CityDetail.phase2 default_config
       [("7", fun _ => sink_accepts 7); ("7", fun _ => sink_accepts 7)] CityDetail.fresh)
  = ∅ /\
  (2 <= length (CityDetail.requests
                  (CityDetail.phase2 default_config
                     [("7", fun _ => sink_accepts 7); ("7", fun _ => sink_accepts 7)]
                     CityDetail.fresh)))%nat.
Proof.
  pose proof (numeric_ids_not_remembered default_config
                [("7", fun _ => sink_accepts 7); ("7", fun _ => sink_accepts 7)]
                CityDetail.fresh
                ltac:(repeat constructor)) as [H1 H2].
  split; [exact H1|].
  apply H2. repeat constructor; simpl; set_solver.
Defined.

(** X17. An id is skipped the second time when the ad's own [id] is the
    very string the search page gave: only then does [processedIds] hold
    what [has(id)] looks for. The second visit then changes nothing. *)
Theorem text_id_scraped_once c id first again p s :
  CityDetail.fetchPropertyDetail (CityDetail.reply (first 0%nat)) = Some p ->
  CityDetail.property_id p = Js.JStr id ->
  CityDetail.scrape_id c id again (CityDetail.scrape_id c id first s)
  = CityDetail.scrape_id c id first s.
Proof.
  intros Hp Hid.
  assert (Hin : id ∈ CityDetail.processedIds (CityDetail.scrape_id c id first s)).
  { unfold CityDetail.scrape_id at 1.
    destruct (bool_decide (id ∈ CityDetail.processedIds s)) eqn:E.
    { apply bool_decide_eq_true_1 in E. exact E. }
    assert (Hadd : id ∈ CityDetail.processedIds
                          (CityDetail.attempt c id (first 0%nat) s).2).
    { unfold CityDetail.attempt. rewrite Hp, Hid.
      destruct (CityDetail.transform_fails (first 0%nat)); simpl; [set_solver|].
      destruct (truthy_str (apiKey c)); [destruct (CityDetail.send_fails _)|]; simpl;
        set_solver. }
    cbn [CityDetail.while_loop]. change (0 <=? CityScraper.maxRetries)%nat with true.
    cbv iota.
    destruct (CityDetail.attempt c id (first 0%nat) s) as [threw s1]. simpl in Hadd.
    destruct threw; [|exact Hadd].
    change (CityScraper.maxRetries <? 1)%nat with false. cbv iota.
    pose proof (while_loop_counts c id first CityScraper.maxRetries 1
                  (CityDetail.sleep (CityScraper.backoff_sleep c 1) s1)) as Hw.
    simpl in Hw. destruct Hw as (_ & _ & _ & _ & Hsub). set_solver. }
  unfold CityDetail.scrape_id at 1. rewrite bool_decide_eq_true_2 by exact Hin. reflexivity.
Qed.

(** The theorem at listing 7, listed twice, whose ad carries the id as
    the string '7': one request. *)
Lemma text_id_scraped_once_witness :
  CityDetail.requests
    (CityDetail.scrape_id default_config "7" (fun _ => text_attempt)
       (CityDetail.scrape_id default_config "7" (fun _ => text_attempt) CityDetail.fresh))
  = ["7"].
Proof.
  rewrite (text_id_scraped_once default_config "7" (fun _ => text_attempt)
             (fun _ => text_attempt) _ CityDetail.fresh eq_refl eq_refl).
  reflexivity.
Defined.

(** ** The API client *)


(** X19. A configured [retryAttempts] of 0 does not switch retrying off:
    [0 || 3] is 3, and the client behaves as with three retries. *)
Theorem zero_retry_attempts_means_three delay outcomes : forall attempt,
  ApiClient.request {| ApiClient.retryAttempts := Some 0; ApiClient.retryDelayMs := delay |}
    outcomes attempt
  = ApiClient.request {| ApiClient.retryAttempts := Some 3; ApiClient.retryDelayMs := delay |}
      outcomes attempt.
Proof.
  induction outcomes as [|o rest IH]; intros attempt; simpl; [reflexivity|].
  destruct o; [reflexivity| |]; unfold ApiClient.may_retry; simpl;
    rewrite IH; reflexivity.
Qed.

(** X20. Given an outcome for every attempt it can make, [request]
    returns a response exactly when one of the attempts it is allowed
    succeeds: the first, or one of the [retryAttempts || 3] retries. *)
Theorem request_succeeds_iff c outcomes : forall attempt,
  ApiClient.num_or (ApiClient.retryAttempts c) 3 - Z.of_nat attempt < Z.of_nat (length outcomes) ->
  (ApiClient.request c outcomes attempt).2 = true <->
  exists i, outcomes !! i = Some ApiClient.Succeeds /\
            Z.of_nat (attempt + i) <= Z.max (Z.of_nat attempt)
                                        (ApiClient.num_or (ApiClient.retryAttempts c) 3).
Proof.
  induction outcomes as [|o rest IH]; intros attempt Hlen.
  { simpl in *. split; [discriminate|]. intros (i & Hi & _). discriminate. }
  assert (Hretry : forall d,
    ((if ApiClient.may_retry c attempt
      then let '(ds, ok) := ApiClient.request c rest (S attempt) in (d :: ds, ok)
      else ([], false)).2 = true) <->
    exists i, rest !! i = Some ApiClient.Succeeds /\
              Z.of_nat (attempt + S i) <= Z.max (Z.of_nat attempt)
                                            (ApiClient.num_or (ApiClient.retryAttempts c) 3)).
  { intros d. unfold ApiClient.may_retry.
    destruct (Z.of_nat attempt <? ApiClient.num_or (ApiClient.retryAttempts c) 3) eqn:E.
    - specialize (IH (S attempt) ltac:(simpl in Hlen; lia)).
      destruct (ApiClient.request c rest (S attempt)) as [ds ok]. simpl in *.
      rewrite IH. split; intros (i & Hi & Hle); exists i; (split; [exact Hi|lia]).
    - simpl. split; [discriminate|]. intros (i & Hi & Hle). lia. }
  simpl. destruct o.
  - simpl. split; [intros _|reflexivity]. exists 0%nat. simpl. split; [reflexivity|lia].
  - rewrite Hretry. split.
    + intros (i & Hi & Hle). exists (S i). split; [exact Hi|exact Hle].
    + intros ([|i] & Hi & Hle); [discriminate|]. exists i. split; [exact Hi|exact Hle].
  - rewrite Hretry. split.
    + intros (i & Hi & Hle). exists (S i). split; [exact Hi|exact Hle].
    + intros ([|i] & Hi & Hle); [discriminate|]. exists i. split; [exact Hi|exact Hle].
Qed.

(** The theorem at a request that fails, is rate limited and then
    succeeds. *)
Lemma request_succeeds_iff_witness :
  (ApiClient.request api_defaults
     [ApiClient.Fails; ApiClient.RateLimited 2; ApiClient.Succeeds; ApiClient.Fails] 0).2
  = true.
Proof.
  apply (request_succeeds_iff api_defaults
           [ApiClient.Fails; ApiClient.RateLimited 2; ApiClient.Succeeds; ApiClient.Fails]
           0 ltac:(simpl; lia)).
  exists 2%nat. split; [reflexivity|simpl; lia].
Defined.

(** X21. A bearer token takes the [Authorization] header whatever the
    configured headers say, and the API key is then not sent: the
    [X-API-Key] header is the configured one, if any. *)
Theorem buildHeaders_token_wins c token :
  ApiHeaders.authToken c = Some token ->
  truthy_str token = true ->
  ApiHeaders.buildHeaders c !! "Authorization" = Some (String.append "Bearer " token) /\
  ApiHeaders.buildHeaders c !! "X-API-Key" = ApiHeaders.headers c !! "X-API-Key".
Proof.
  intros Htok Htruthy. unfold ApiHeaders.buildHeaders, ApiHeaders.truthy_text.
  rewrite Htok, Htruthy. simpl. split.
  - apply lookup_insert_eq.
  - rewrite lookup_insert_ne by discriminate.
    rewrite lookup_union_l; [reflexivity|].
    rewrite !lookup_insert_ne by discriminate. apply lookup_singleton_ne. discriminate.
Qed.

(** The theorem at a client with a configured [Authorization] header, a
    token and an API key. *)
Lemma buildHeaders_token_wins_witness :
  ApiHeaders.buildHeaders client_with_both !! "Authorization" = Some "Bearer t0k" /\
  ApiHeaders.buildHeaders client_with_both !! "X-API-Key" = None.
Proof.
  exact (buildHeaders_token_wins client_with_both "t0k" eq_refl eq_refl).
Defined.

(** X22. A configured header other than the two credentials the client
    sets itself is sent as configured, also in the place of a default. *)
Theorem buildHeaders_keeps_configured c name value :
  ApiHeaders.headers c !! name = Some value ->
  name <> "Authorization" -> name <> "X-API-Key" ->
  ApiHeaders.buildHeaders c !! name = Some value.
Proof.
  intros Hc Ha Hk. unfold ApiHeaders.buildHeaders.
  destruct (ApiHeaders.truthy_text (ApiHeaders.authToken c));
    [|destruct (ApiHeaders.truthy_text (ApiHeaders.apiKey c))];
    rewrite ?lookup_insert_ne by congruence;
    apply lookup_union_Some_l; exact Hc.
Qed.

(** The theorem at a client whose configured headers name a user agent. *)
Lemma buildHeaders_keeps_configured_witness :
  ApiHeaders.buildHeaders client_with_agent !! "User-Agent" = Some "curl".
Proof.
  apply (buildHeaders_keeps_configured client_with_agent "User-Agent" "curl" eq_refl);
    discriminate.
Defined.

(** X23. At its limit the client always waits: the test [waitTime > 0]
    cannot fail once the count has reached [requestsPerSecond] and the
    reset time is a number. The wait ends a second after the reset time,
    and is at most a second unless the reset time lies ahead. *)
Theorem limit_reached_always_waits rps now st t :
  RateLimit.resetTime st = Some t ->
  Qeq_bool rps 0 = false ->
  let out := RateLimit.checkRateLimit (Some rps) now st in
  Qle_bool rps (inject_Z (RateLimit.requestCount out.2 - 1)) = true ->
  exists d t', out.1 = Some d /\ RateLimit.resetTime out.2 = Some t' /\
               0 < d /\ now + d = t' + 1000 /\ (d <= 1000 \/ now < t).
Proof.
  intros Ht Hrps. unfold RateLimit.checkRateLimit. rewrite Ht. simpl.
  destruct (1000 <=? now - t) eqn:E; simpl; rewrite Hrps; simpl.
  - intros Hle. replace (0 + 1 - 1) with 0 in Hle by lia. rewrite Hle. simpl.
    replace (now - now) with 0 by lia. simpl.
    exists 1000, now. repeat split; lia.
  - rewrite Ht. simpl. intros Hle.
    replace (RateLimit.requestCount st + 1 - 1) with (RateLimit.requestCount st) in Hle by lia.
    rewrite Hle. simpl.
    replace (0 <? 1000 - (now - t)) with true by lia.
    exists (1000 - (now - t)), t. repeat split; lia.
Qed.

(** The theorem 300 ms after the reset, one request per second allowed. *)
Lemma limit_reached_always_waits_witness :
  (RateLimit.checkRateLimit (Some 1%Q) 5300 busy_client).1 = Some 700.
Proof.
  destruct (limit_reached_always_waits 1%Q 5300 busy_client 5000 eq_refl eq_refl eq_refl)
    as (d & t' & Hd & Ht' & _ & Heq & _).
  rewrite Hd. f_equal. simpl in Ht'. injection Ht' as <-. lia.
Defined.

Lemma checkRateLimit_without_reset rps now st :
  RateLimit.resetTime st = None ->
  RateLimit.checkRateLimit rps now st
  = (None, {| RateLimit.requestCount := RateLimit.requestCount st + 1;
              RateLimit.resetTime := None;
              RateLimit.remainingRequests := RateLimit.remainingRequests st |}).
Proof.
  intros Ht. unfold RateLimit.checkRateLimit. rewrite Ht. simpl. rewrite Ht.
  destruct rps as [rps|]; [|reflexivity].
  destruct (negb (Qeq_bool rps 0) && Qle_bool rps (inject_Z (RateLimit.requestCount st)));
    reflexivity.
Qed.

(** X24. A reset header that [parseInt] cannot read leaves NaN as the
    reset time, and with it every comparison of [checkRateLimit] is false:
    the client then never waits and never starts a new period, whatever
    the limit and however many requests follow, until a response brings a
    reset header that can be read. *)
Theorem unreadable_reset_switches_limit_off rps remaining calls st :
  Forall (fun call => no_readable_reset call.2 = true) calls ->
  let out := RateLimit.exchanges rps calls
               (RateLimit.updateRateLimit remaining (RateLimit.Parsed None) st) in
  out.1 = repeat None (length calls) /\
  RateLimit.resetTime out.2 = None /\
  RateLimit.requestCount out.2 = RateLimit.requestCount st + Z.of_nat (length calls).
Proof.
  intros Hall out. subst out.
  assert (Hgen : forall s0, RateLimit.resetTime s0 = None ->
            (RateLimit.exchanges rps calls s0).1 = repeat None (length calls) /\
            RateLimit.resetTime (RateLimit.exchanges rps calls s0).2 = None /\
            RateLimit.requestCount (RateLimit.exchanges rps calls s0).2
            = RateLimit.requestCount s0 + Z.of_nat (length calls)).
  { induction Hall as [|[now response] later Hcall _ IH]; intros s0 H0.
    { simpl. repeat split; [exact H0|lia]. }
    cbn [RateLimit.exchanges length repeat].
    rewrite (checkRateLimit_without_reset rps now s0 H0).
    match goal with
    | |- context [RateLimit.exchanges rps later ?s1] =>
        assert (H1 : RateLimit.resetTime s1 = None /\
                     RateLimit.requestCount s1 = RateLimit.requestCount s0 + 1)
    end.
    { simpl in Hcall. destruct response as [[remaining' reset]|]; [|split; reflexivity].
      destruct reset as [|[n|]]; try discriminate; destruct remaining'; split; reflexivity. }
    destruct H1 as [H1 H2]. specialize (IH _ H1).
    destruct (RateLimit.exchanges rps later _) as [waits s2]. simpl in *.
    destruct IH as (-> & -> & ->). repeat split. lia. }
  destruct (Hgen (RateLimit.updateRateLimit remaining (RateLimit.Parsed None) st))
    as (H1 & H2 & H3).
  { destruct remaining; reflexivity. }
  rewrite H1, H2, H3. repeat split. destruct remaining; reflexivity.
Qed.

(** The theorem at three requests within 20 ms, one per second allowed:
    none of them waits. *)
Lemma unreadable_reset_switches_limit_off_witness :
  (RateLimit.exchanges (Some 1%Q)
     [(5000, Some (RateLimit.Absent, RateLimit.Absent)); (5010, None);
      (5020, Some (RateLimit.Parsed (Some 9), RateLimit.Parsed None))]
     (RateLimit.updateRateLimit RateLimit.Absent (RateLimit.Parsed None) busy_client)).1
  = [None; None; None].
Proof.
  exact (proj1 (unreadable_reset_switches_limit_off (Some 1%Q) RateLimit.Absent
                  [(5000, Some (RateLimit.Absent, RateLimit.Absent)); (5010, None);
                   (5020, Some (RateLimit.Parsed (Some 9), RateLimit.Parsed None))]
                  busy_client ltac:(repeat constructor))).
Defined.

(** ** Amenities and country-specific fields *)

Lemma get_Some_lt s : forall p a, String.get p s = Some a -> (p < String.length s)%nat.
Proof.
  induction s as [|c s IH]; intros p a H; simpl in *; [discriminate|].
  destruct p as [|p]; [lia|]. apply IH in H. lia.
Qed.

Lemma get_length s : forall p, (p < String.length s)%nat -> exists a, String.get p s = Some a.
Proof.
  induction s as [|c s IH]; intros p H; simpl in *; [lia|].
  destruct p as [|p]; [eauto|]. apply IH. lia.
Qed.

Lemma get_ext s1 : forall s2, (forall p, String.get p s1 = String.get p s2) -> s1 = s2.
Proof.
  induction s1 as [|c s1 IH]; intros [|d s2] H.
  - reflexivity.
  - specialize (H 0%nat). discriminate.
  - specialize (H 0%nat). discriminate.
  - pose proof (H 0%nat) as H0. simpl in H0. injection H0 as ->.
    f_equal. apply IH. intros p. exact (H (S p)).
Qed.

Lemma substring_inside s m n i k :
  (i + k <= n)%nat ->
  String.substring i k (String.substring m n s) = String.substring (m + i) k s.
Proof.
  intros Hle. apply get_ext. intros p.
  destruct (decide (p < k)%nat) as [Hp|Hp].
  - rewrite !substring_correct1 by lia. f_equal. lia.
  - rewrite !substring_correct2 by lia. reflexivity.
Qed.

Lemma includes_spec text kw :
  Transformer.includes text kw = true <->
  exists m, String.substring m (String.length kw) text = kw.
Proof.
  unfold Transformer.includes. split.
  - destruct (String.index 0 kw text) as [m|] eqn:E; [|discriminate].
    intros _. exists m. exact (index_correct1 _ _ _ _ E).
  - intros (m & Hm). destruct (String.index 0 kw text) as [m'|] eqn:E; [reflexivity|].
    destruct kw as [|c kw].
    + apply index_correct4 in E. lia.
    + exfalso. apply (index_correct3 0 m _ _ E); [discriminate|lia|exact Hm].
Qed.

(** [includes] sees through keywords: a text that includes a word
    includes all that the word includes. *)
Lemma includes_trans text word part :
  Transformer.includes word part = true ->
  Transformer.includes text word = true ->
  Transformer.includes text part = true.
Proof.
  rewrite !includes_spec. intros (i & Hi) (m & Hm).
  destruct part as [|c part].
  { exists 0%nat. simpl. destruct text; reflexivity. }
  exists (m + i)%nat.
  transitivity (String.substring i (String.length (String c part))
                  (String.substring m (String.length word) text));
    [|rewrite Hm; exact Hi].
  symmetry. apply substring_inside.
  destruct (get_length (String c part) (String.length (String c part) - 1)) as [a Ha];
    [simpl; lia|].
  assert (Ha' : String.get (String.length (String c part) - 1)
                  (String.substring i (String.length (String c part)) word) = Some a)
    by (rewrite Hi; exact Ha).
  rewrite substring_correct1 in Ha' by (simpl; lia).
  apply get_Some_lt in Ha'. simpl in *. lia.
Qed.

(** X25. A terrace makes a listing air-conditioned: the keyword 'ac' of
    [has_air_conditioning] is part of the word 'terrace', so every feature
    text in which [has_terrace] finds that word sets both flags. *)
Theorem terrace_counts_as_air_conditioning features existing :
  Transformer.includes (feature_text features existing) "terrace" = true ->
  Transformer.has_terrace (Transformer.parseAmenities features existing) = true /\
  Transformer.has_air_conditioning (Transformer.parseAmenities features existing) = true.
Proof.
  intros H. unfold Transformer.parseAmenities, Transformer.checkFeature. simpl.
  fold (feature_text features existing). rewrite H. split; [reflexivity|].
  rewrite (includes_trans _ "terrace" "ac" eq_refl H).
  rewrite !orb_true_r. reflexivity.
Qed.

(** The theorem at a listing whose only feature is 'Terrace'. *)
Lemma terrace_counts_as_air_conditioning_witness :
  Transformer.includes (feature_text ["Terrace"] None) "terrace" = true /\
  Transformer.has_air_conditioning (Transformer.parseAmenities ["Terrace"] None) = true.
Proof.
  split; [reflexivity|].
  exact (proj2 (terrace_counts_as_air_conditioning ["Terrace"] None eq_refl)).
Defined.

(** X26. Without separate amenities the two readings of the features
    agree: the Polish flags [balkon], [taras], [ogrod] and [winda] are the
    standard [has_balcony], [has_terrace], [has_garden] and
    [has_elevator], and [has_garage] implies [garaz]. *)
Theorem country_flags_follow_amenities p :
  default [] (Transformer.amenities p) = [] ->
  let std := Transformer.std_amenities (Transformer.transformToStandard p) in
  let pl := CountrySpecific.buildCountrySpecificFields p in
  CountrySpecific.balkon pl = Transformer.has_balcony std /\
  CountrySpecific.taras pl = Transformer.has_terrace std /\
  CountrySpecific.ogrod pl = Transformer.has_garden std /\
  CountrySpecific.winda pl = Transformer.has_elevator std /\
  (Transformer.has_garage std = true -> CountrySpecific.garaz pl = true).
Proof.
  intros Hnone. unfold Transformer.transformToStandard, Transformer.parseAmenities,
    CountrySpecific.buildCountrySpecificFields, Transformer.checkFeature.
  cbn [Transformer.std_amenities CountrySpecific.balkon CountrySpecific.taras
       CountrySpecific.ogrod CountrySpecific.winda CountrySpecific.garaz
       Transformer.has_balcony Transformer.has_terrace Transformer.has_garden
       Transformer.has_elevator Transformer.has_garage existsb].
  rewrite Hnone, app_nil_r.
  generalize (Transformer.toLowerCase (String.concat " " (Transformer.features p))).
  intros text. repeat split.
  all: repeat match goal with
       | |- context [Transformer.includes ?t ?k] =>
           destruct (Transformer.includes t k)
       end; simpl; try reflexivity; try discriminate; auto.
Qed.

(** The theorem at a house whose only feature is a balcony. *)
Lemma country_flags_follow_amenities_witness :
  CountrySpecific.balkon (CountrySpecific.buildCountrySpecificFields (listing_of_type "Dom"))
  = Transformer.has_balcony
      (Transformer.std_amenities (Transformer.transformToStandard (listing_of_type "Dom"))).
Proof.
  exact (proj1 (country_flags_follow_amenities (listing_of_type "Dom") eq_refl)).
Defined.

(** X27. [polishTypeMap] is keyed by the English names only. A listing
    gets its Polish type name just when its type is one of those four
    names, and its standard type is then that very name; a listing typed
    in Polish is classified by [propertyTypeMap] and yet left without
    [typ_nieruchomosci]. *)
Theorem polish_type_only_for_english_names p :
  let key := Transformer.toLowerCase (Transformer.propertyType p) in
  let typ := CountrySpecific.typ_nieruchomosci
               (CountrySpecific.buildCountrySpecificFields p) in
  (forall t, typ = Transformer.VStr t ->
     key ∈ ["apartment"; "house"; "land"; "commercial"] /\
     Transformer.property_type (Transformer.transformToStandard p) = Transformer.VStr key) /\
  (key ∈ ["mieszkanie"; "dom"; "dzialka"; "działka"; "lokal"] ->
     typ = Transformer.VUndefined /\
     Transformer.property_type (Transformer.transformToStandard p)
     ∈ [Transformer.VStr "apartment"; Transformer.VStr "house"; Transformer.VStr "land";
        Transformer.VStr "commercial"]).
Proof.
  intros key typ. subst typ. unfold CountrySpecific.buildCountrySpecificFields,
    Transformer.transformToStandard.
  cbn [CountrySpecific.typ_nieruchomosci Transformer.property_type]. fold key.
  generalize key. clear key p. intros key. split.
  - intros t. unfold Transformer.lookup_literal, CountrySpecific.polishTypeMap,
      Transformer.propertyTypeMap, Js.assoc.
    destruct (String.eqb key "apartment") eqn:E1;
      [apply String.eqb_eq in E1; subst key; intros _; split; [set_solver|reflexivity]|].
    destruct (String.eqb key "house") eqn:E2;
      [apply String.eqb_eq in E2; subst key; intros _; split; [set_solver|reflexivity]|].
    destruct (String.eqb key "land") eqn:E3;
      [apply String.eqb_eq in E3; subst key; intros _; split; [set_solver|reflexivity]|].
    destruct (String.eqb key "commercial") eqn:E4;
      [apply String.eqb_eq in E4; subst key; intros _; split; [set_solver|reflexivity]|].
    destruct (bool_decide (key ∈ Transformer.object_prototype_keys)); discriminate.
  - intros Hin.
    repeat (apply elem_of_cons in Hin as [->|Hin];
            [split; [reflexivity|vm_compute; set_solver]|]).
    inversion Hin.
Qed.
